(** * The iFood conciliation pipeline ([scripts/process_conciliation.py])

    A shallow embedding of the file-to-record pipeline: layout detection,
    worksheet selection, field cleaning, identity and hash computation,
    period-scoped replacement, batched persistence and the status state
    machine of the orchestrator.

    Conventions of the embedding.
    - Python [str] is [string]; the text handled here is ASCII, one
      character per byte ([str.strip], [str.lower] and [len] are modelled on
      that range).
    - A spreadsheet cell is a [value]: absent, text, integer or binary64
      float ([float] is Rocq's primitive IEEE-754 type, so NaN and the
      infinities are values of it, as in NumPy).
    - A Python [dict] whose order matters (a record, a column mapping) is
      an association list in insertion order; [set] objects are [gset].
    - Calls to the store and to the status sink may raise: a [faults]
      record says which ones do, and the functions thread the store, the
      status sink and the log of calls explicitly. *)

From Stdlib Require Import ZArith Floats Ascii String.
From stdpp Require Import base option list strings pretty gmap sorting.

Local Open Scope string_scope.
Local Open Scope list_scope.

(** ** Text primitives of the Python runtime *)

Module Py.

(** [str.isspace] on the ASCII range: TAB, LF, VT, FF, CR, FS, GS, RS, US
    and the space. *)
Definition is_space (c : ascii) : bool :=
  let n := nat_of_ascii c in
  ((9 <=? n) && (n <=? 13) || (28 <=? n) && (n <=? 32))%nat.

Fixpoint lstrip (s : string) : string :=
  match s with
  | EmptyString => EmptyString
  | String c r => if is_space c then lstrip r else s
  end.

(** [rstrip] drops a character when it is white space and nothing but white
    space follows it. *)
Fixpoint rstrip (s : string) : string :=
  match s with
  | EmptyString => EmptyString
  | String c r =>
      match rstrip r with
      | EmptyString => if is_space c then EmptyString else String c EmptyString
      | r' => String c r'
      end
  end.

Definition strip (s : string) : string := rstrip (lstrip s).

Definition lower_char (c : ascii) : ascii :=
  let n := nat_of_ascii c in
  if ((65 <=? n) && (n <=? 90))%nat then ascii_of_nat (n + 32) else c.

Fixpoint lower (s : string) : string :=
  match s with
  | EmptyString => EmptyString
  | String c r => String (lower_char c) (lower r)
  end.

(** Failures are Python exceptions; only the class and the message matter. *)
Inductive exn : Type :=
  | ValueError (msg : string)
  | StoreError (msg : string)
  | ReadError (msg : string).

Inductive result (A : Type) : Type :=
  | Ok (a : A)
  | Raise (e : exn).
Arguments Ok {A} a.
Arguments Raise {A} e.

End Py.

Import Py.

(** ** Layout detection *)

Definition V3_MARKERS : gset string :=
  {[ "pedido_detalhes"; "id_saldo"; "metodo_pagamento"; "bandeira_pagamento" ]}.

Definition LEGACY_MARKERS : gset string :=
  {[ "responsavel_transacao"; "base_calculo" ]}.

(** [if not layout_hint] holds for [None] and for the empty string. *)
Definition normalize_layout_hint (layout_hint : option string) : option string :=
  match layout_hint with
  | None => None
  | Some "" => None
  | Some h =>
      let h' := lower (strip h) in
      if bool_decide (h' ∈ ({[ "legacy"; "v3" ]} : gset string)) then Some h' else None
  end.

(** [if normalized_hint] is true for every hint that survives the
    normalisation, since both accepted literals are non-empty. *)
Definition detect_layout (columns : gset string) (layout_hint : option string) : string :=
  match normalize_layout_hint layout_hint with
  | Some h => h
  | None => if bool_decide (V3_MARKERS ⊆ columns) then "v3" else "legacy"
  end.

(** ** Worksheet selection *)

Definition _select_sheet_name (sheet_names : list string) (layout_hint : option string)
  : result string :=
  match sheet_names with
  | [] => Raise (ValueError "Arquivo Excel sem abas disponiveis.")
  | first :: _ =>
      let normalized_hint := normalize_layout_hint layout_hint in
      let second := default first (sheet_names !! 1) in
      if bool_decide (normalized_hint = Some "legacy") && bool_decide (1 < length sheet_names)
      then Ok second
      else if bool_decide (normalized_hint = Some "v3") then Ok first
      else if bool_decide (1 < length sheet_names) then Ok second
      else Ok first
  end.


(** ** Cell values *)

(** What a cell of an [object] column holds: [None], a [str], an [int] or a
    [float] (NumPy's NaN and infinities included). *)
Inductive value : Type :=
  | VNone
  | VStr (s : string)
  | VInt (z : Z)
  | VFloat (f : float).

Global Instance value_inhabited : Inhabited value := populate VNone.

(** [x != x], and [x == inf or x == -inf], as Python and NumPy test them. *)
Definition is_nan (f : float) : bool := negb (PrimFloat.eqb f f).
Definition is_inf (f : float) : bool :=
  PrimFloat.eqb f infinity || PrimFloat.eqb f neg_infinity.

(** The property the JSON encoder needs of a value: it is not a NaN or an
    infinity. *)
Definition json_safe (v : value) : bool :=
  match v with
  | VFloat f => negb (is_nan f) && negb (is_inf f)
  | _ => true
  end.

(** ** [repr] of a float

    CPython prints the shortest decimal that reads back as the same
    binary64 (David Gay's [dtoa], mode 0), in positional notation when the
    decimal point falls within 16 digits and in exponent notation
    otherwise. The digit generation below follows [dtoa]'s big-integer
    loop on [Z]. *)
Module FloatRepr.

Local Open Scope Z_scope.

(** The state of the digit loop: the value left is [b / S], and [mlo / S],
    [mhi / S] are the half distances to the neighbouring floats. *)
Record dstate := { b : Z; S_ : Z; mlo : Z; mhi : Z }.

(** [x = m * 2^e] exactly; the gap below is half the gap above when [m]
    is a power of two and [x] is not in the lowest binade. *)
Definition start (m e : Z) : dstate :=
  let boundary := (m =? 2 ^ 52) && (-1074 <? e) in
  if 0 <=? e then
    if boundary then {| b := m * 2 ^ e * 4; S_ := 4; mlo := 2 ^ e; mhi := 2 ^ (e + 1) |}
    else {| b := m * 2 ^ e * 2; S_ := 2; mlo := 2 ^ e; mhi := 2 ^ e |}
  else
    if boundary then {| b := m * 4; S_ := 2 ^ (- e) * 4; mlo := 1; mhi := 2 |}
    else {| b := m * 2; S_ := 2 ^ (- e) * 2; mlo := 1; mhi := 1 |}.

Definition scale (k : Z) (st : dstate) : dstate :=
  if 0 <=? k then
    {| b := b st; S_ := S_ st * 10 ^ k; mlo := mlo st; mhi := mhi st |}
  else
    let p := 10 ^ (- k) in
    {| b := b st * p; S_ := S_ st; mlo := mlo st * p; mhi := mhi st * p |}.

(** The decimal exponent [k] with [10^k <= b/S < 10^(k+1)], searched from
    an estimate out of the binary logarithms. *)
Fixpoint adjust_k (fuel : nat) (st : dstate) (k : Z) : Z :=
  match fuel with
  | O => k
  | S fuel' =>
      let s := scale k st in
      if b s <? S_ s then adjust_k fuel' st (k - 1)
      else if S_ s * 10 <=? b s then adjust_k fuel' st (k + 1)
      else k
  end.

Definition exponent10 (st : dstate) : Z :=
  adjust_k 8 st ((Z.log2 (b st) - Z.log2 (S_ st)) * 30103 / 100000).

(** [roundoff]: add one to the last digit, carrying over the nines; the
    boolean says that the carry left the string (all digits were nines). *)
Fixpoint increment (ds : list Z) : list Z * bool :=
  match ds with
  | [] => ([], true)
  | d :: r =>
      let '(r', carry) := increment r in
      if carry then (if d =? 9 then (0 :: r', true) else ((d + 1) :: r', false))
      else (d :: r', false)
  end.

Fixpoint strip_zeros (ds : list Z) : list Z :=
  match ds with
  | [] => []
  | d :: r =>
      match strip_zeros r with
      | [] => if d =? 0 then [] else [d]
      | r' => d :: r'
      end
  end.

Definition round_up (acc : list Z) (k : Z) : list Z * Z :=
  let '(ds, carry) := increment acc in
  if carry then ([1], k + 1) else (strip_zeros ds, k).

(** The loop of [dtoa]: [acc] holds the digits produced so far. *)
Fixpoint digits_loop (fuel : nat) (even : bool) (st : dstate) (acc : list Z) (k : Z)
  : list Z * Z :=
  match fuel with
  | O => (acc, k)
  | S fuel' =>
      let dig := b st / S_ st in
      let r := b st mod S_ st in
      let j := r ?= mlo st in
      let j1 := (r + mhi st) ?= S_ st in
      let low_ok := match j with Lt => true | Eq => even | Gt => false end in
      if match j1 with Eq => even | _ => false end then
        if dig =? 9 then round_up (acc ++ [9]) k
        else (acc ++ [match j with Gt => dig + 1 | _ => dig end], k)
      else if low_ok then
        if r =? 0 then (acc ++ [dig], k)
        else
          match j1 with
          | Gt =>
              let up := match 2 * r ?= S_ st with
                        | Gt => true | Eq => Z.odd dig | Lt => false end in
              if up then (if dig =? 9 then round_up (acc ++ [9]) k else (acc ++ [dig + 1], k))
              else (acc ++ [dig], k)
          | _ => (acc ++ [dig], k)
          end
      else
        match j1 with
        | Gt => if dig =? 9 then round_up (acc ++ [9]) k else (acc ++ [dig + 1], k)
        | _ =>
            digits_loop fuel' even
              {| b := r * 10; S_ := S_ st; mlo := mlo st * 10; mhi := mhi st * 10 |}
              (acc ++ [dig]) k
        end
  end.

(** Shortest digits of [m * 2^e] and the position [decpt] of the decimal
    point: the value reads [0.d1 d2 ... dn * 10^decpt]. *)
Definition shortest (m e : Z) : list Z * Z :=
  let st := start m e in
  let k := exponent10 st in
  let '(ds, k') := digits_loop 40 (Z.even m) (scale k st) [] k in
  (ds, k' + 1).

Definition digit_char (d : Z) : ascii := ascii_of_nat (48 + Z.to_nat d).

Definition digits_string (ds : list Z) : string :=
  string_of_list_ascii (map digit_char ds).

Definition zeros (n : Z) : string :=
  string_of_list_ascii (replicate (Z.to_nat n) "0"%char).

(** [format_float_short] with format code ['r']. *)
Definition format (ds : list Z) (decpt : Z) : string :=
  let n := Z.of_nat (length ds) in
  if (decpt <=? -4) || (16 <? decpt) then
    let e := decpt - 1 in
    let mant :=
      match ds with
      | [] => ""%string
      | [d] => digits_string [d]
      | d :: r => (digits_string [d] ++ "." ++ digits_string r)%string
      end in
    let ea := Z.abs e in
    let sign : string := if e <? 0 then "-"%string else "+"%string in
    let pad : string := if ea <? 10 then "0"%string else ""%string in
    (mant ++ "e" ++ sign ++ pad ++ pretty ea)%string
  else if decpt <=? 0 then
    ("0." ++ zeros (- decpt) ++ digits_string ds)%string
  else if n <=? decpt then
    (digits_string ds ++ zeros (decpt - n) ++ ".0")%string
  else
    (digits_string (take (Z.to_nat decpt) ds) ++ "."
       ++ digits_string (drop (Z.to_nat decpt) ds))%string.

Definition repr (f : float) : string :=
  match Prim2SF f with
  | S754_nan => "nan"
  | S754_infinity false => "inf"
  | S754_infinity true => "-inf"
  | S754_zero false => "0.0"
  | S754_zero true => "-0.0"
  | S754_finite s m e =>
      let '(ds, decpt) := shortest (Z.pos m) e in
      ((if s then "-" else "") ++ format ds decpt)%string
  end.

End FloatRepr.

(** [str(v)], which is what [Series.astype(str)] applies to each cell. *)
Definition py_str (v : value) : string :=
  match v with
  | VNone => "None"
  | VStr s => s
  | VInt z => pretty z
  | VFloat f => FloatRepr.repr f
  end.

(** Truth value of a cell, as [if v:] tests it; NaN is true. *)
Definition truthy (v : value) : bool :=
  match v with
  | VNone => false
  | VStr s => negb (String.eqb s "")
  | VInt z => negb (Z.eqb z 0)
  | VFloat f => negb (PrimFloat.eqb f 0)
  end.

(** ** String edits of the Field Cleaner *)

Definition is_digit (c : ascii) : bool :=
  let n := nat_of_ascii c in ((48 <=? n) && (n <=? 57))%nat.

Fixpoint filter_chars (keep : ascii -> bool) (s : string) : string :=
  match s with
  | EmptyString => EmptyString
  | String c r => if keep c then String c (filter_chars keep r) else filter_chars keep r
  end.

Fixpoint replace_char (old new : ascii) (s : string) : string :=
  match s with
  | EmptyString => EmptyString
  | String c r => String (if Ascii.eqb c old then new else c) (replace_char old new r)
  end.

(** [str.replace(r'[^0-9,\.-]', '', regex=True)]: digits, comma, period and
    minus are kept. *)
Definition numeric_char (c : ascii) : bool :=
  is_digit c || Ascii.eqb c ","%char || Ascii.eqb c "."%char || Ascii.eqb c "-"%char.

Definition keep_numeric_chars (s : string) : string := filter_chars numeric_char s.

(** [str.replace(',', '.', regex=False)]. *)
Definition comma_to_period (s : string) : string := replace_char ","%char "."%char s.

Definition line_feed : string := String "010"%char "".

(** [str.replace(r'\.0$', '', regex=True)]: the dollar matches at the end
    of the text and also before a line feed that ends it. *)
Fixpoint strip_dot_zero (s : string) : string :=
  match s with
  | EmptyString => EmptyString
  | String c r =>
      if String.eqb s ".0" then ""
      else if String.eqb s (".0" ++ line_feed) then line_feed
      else String c (strip_dot_zero r)
  end.

(** ** [pd.to_numeric(..., errors='coerce')] on cleaned text

    pandas reads a text with [precise_xstrtod]: an optional sign, digits, an
    optional period and more digits; at most 17 digits are accumulated in
    binary64 and the result is scaled by a power of ten. The cleaner only
    passes texts made of digits, periods and minus signs, and the reader
    below covers that alphabet (any other character rejects the text). *)
Module Numeric.

Definition Z2float (z : Z) : float := SF2Prim (binary_normalize prec emax z 0 false).

(** The table [e[k]] of [1e0 .. 1e308], each the binary64 nearest to the
    power of ten. *)
Definition pow10 (k : Z) : float := Z2float (10 ^ k).

Definition digit_val (c : ascii) : Z := Z.of_nat (nat_of_ascii c) - 48.

Record acc := { number : float; num_digits : Z; exponent : Z; num_decimals : Z }.

(** Digits before the period: past 17 digits they only raise the exponent. *)
Fixpoint int_digits (s : string) (a : acc) : acc * string :=
  match s with
  | String c r =>
      if is_digit c then
        int_digits r
          (if (num_digits a <? 17)%Z
           then {| number := (number a * 10 + Z2float (digit_val c))%float;
                   num_digits := num_digits a + 1;
                   exponent := exponent a; num_decimals := num_decimals a |}
           else {| number := number a; num_digits := num_digits a;
                   exponent := exponent a + 1; num_decimals := num_decimals a |})
      else (a, s)
  | EmptyString => (a, s)
  end.

(** Digits after the period: past 17 digits they are dropped. *)
Fixpoint frac_digits (s : string) (a : acc) : acc * string :=
  match s with
  | String c r =>
      if is_digit c then
        frac_digits r
          (if (num_digits a <? 17)%Z
           then {| number := (number a * 10 + Z2float (digit_val c))%float;
                   num_digits := num_digits a + 1;
                   exponent := exponent a; num_decimals := num_decimals a + 1 |}
           else a)
      else (a, s)
  | EmptyString => (a, s)
  end.

Definition scale10 (x : float) (e : Z) : option float :=
  if (308 <? e)%Z then None
  else if (0 <? e)%Z then Some (x * pow10 e)%float
  else if (e <? -308)%Z then
    if (e <? -616)%Z then Some (x * 0)%float
    else Some (x / pow10 (-308 - e) / pow10 308)%float
  else Some (x / pow10 (- e))%float.

(** A parsed text: the float, and the integer when the text has no period
    ([maybe_int]). *)
Inductive parsed : Type :=
  | PInt (z : Z) (f : float)
  | PFloat (f : float)
  | PFail.

Definition parse (s : string) : parsed :=
  let '(negative, body) :=
    match s with
    | String "-"%char r => (true, r)
    | _ => (false, s)
    end in
  let '(a1, rest1) :=
    int_digits body {| number := 0; num_digits := 0; exponent := 0; num_decimals := 0 |} in
  let '(a2, rest2, has_point) :=
    match rest1 with
    | String "."%char r => let '(a, r') := frac_digits r a1 in (a, r', true)
    | _ => (a1, rest1, false)
    end in
  if (num_digits a2 =? 0)%Z then PFail
  else if negb (String.eqb rest2 "") then PFail
  else
    let x := if negative then (- number a2)%float else number a2 in
    match scale10 x (exponent a2 - num_decimals a2) with
    | None => PFail
    | Some f =>
        if is_inf f then PFail
        else if has_point then PFloat f
        else
          let z := fold_left (fun n c => (n * 10 + digit_val c)%Z)
                             (list_ascii_of_string body) 0%Z in
          PInt (if negative then (- z)%Z else z) f
    end.

Definition float_of (p : parsed) : float :=
  match p with
  | PInt _ f | PFloat f => f
  | PFail => nan
  end.

Definition int64_of (p : parsed) : option Z :=
  match p with
  | PInt z _ => if ((- 2 ^ 63 <=? z) && (z <? 2 ^ 63))%Z then Some z else None
  | _ => None
  end.

(** The column is [int64] when every text is an integer of that range, and
    [float64] otherwise, with NaN for the texts that do not parse.
    (Integers from [2^63] on, which pandas may keep as [uint64], are read
    as floats.) *)
Definition to_numeric (texts : list string) : list value :=
  let ps := map parse texts in
  match mapM int64_of ps with
  | Some zs => map VInt zs
  | None => map (fun p => VFloat (float_of p)) ps
  end.

End Numeric.

(** [Series.replace([np.inf, -np.inf], np.nan)]. *)
Definition inf_to_nan (v : value) : value :=
  match v with
  | VFloat f => if is_inf f then VFloat nan else v
  | _ => v
  end.

(** [replace({np.nan: None})]. *)
Definition nan_to_none (v : value) : value :=
  match v with
  | VFloat f => if is_nan f then VNone else v
  | _ => v
  end.

(** One identifier cell: text form, a trailing [.0] dropped, and the text
    [None] back to [None]. *)
Definition clean_id (v : value) : value :=
  let s := strip_dot_zero (py_str v) in
  if String.eqb s "None" then VNone else VStr s.

(** The text a monetary cell is parsed from. *)
Definition value_text (v : value) : string :=
  comma_to_period (keep_numeric_chars (py_str v)).

(** One monetary column. *)
Definition clean_values (cells : list value) : list value :=
  map inf_to_nan (Numeric.to_numeric (map value_text cells)).

(** ** Timestamps

    [pd.to_datetime] yields a [Timestamp] or [NaT] for each cell; the
    cleaner keeps the ISO-8601 text of the former. *)
Record Timestamp : Type := {
  year : Z; month : Z; day : Z; hour : Z; minute : Z; second : Z; nanosecond : Z
}.

(** Decimal digits of [n], zero-padded on the left to [width] characters. *)
Definition zfill (width : nat) (n : Z) : string :=
  let s : string := pretty (Z.abs n) in
  string_of_list_ascii (replicate (width - String.length s) "0"%char) ++ s.

Definition isoformat (ts : Timestamp) : string :=
  zfill 4 (year ts) ++ "-" ++ zfill 2 (month ts) ++ "-" ++ zfill 2 (day ts)
    ++ "T" ++ zfill 2 (hour ts) ++ ":" ++ zfill 2 (minute ts) ++ ":" ++ zfill 2 (second ts)
    ++ (if (nanosecond ts =? 0)%Z then ""
        else if (nanosecond ts mod 1000 =? 0)%Z then "." ++ zfill 6 (nanosecond ts / 1000)
        else "." ++ zfill 9 (nanosecond ts)).

Definition date_cell (x : option Timestamp) : value :=
  match x with
  | Some ts => VStr (isoformat ts)
  | None => VNone
  end.

(** ** Dictionaries and data frames *)

(** A [dict] with text keys, in insertion order. *)
Definition record : Type := list (string * value).

Fixpoint dict_get {A} (k : string) (d : list (string * A)) : option A :=
  match d with
  | [] => None
  | (k', v) :: r => if String.eqb k k' then Some v else dict_get k r
  end.

(** [d[k] = v]: an existing key keeps its place, a new key goes last. *)
Fixpoint dict_set {A} (k : string) (v : A) (d : list (string * A)) : list (string * A) :=
  match d with
  | [] => [(k, v)]
  | (k', v') :: r => if String.eqb k k' then (k, v) :: r else (k', v') :: dict_set k v r
  end.

Definition dict_has {A} (k : string) (d : list (string * A)) : bool :=
  match dict_get k d with Some _ => true | None => false end.

Definition dict_keys {A} (d : list (string * A)) : list string := map fst d.

(** [{**d, k1: v1, ...}]. *)
Definition dict_update {A} (d upd : list (string * A)) : list (string * A) :=
  fold_left (fun acc kv => dict_set (fst kv) (snd kv) acc) upd d.

Definition mem (x : string) (l : list string) : bool := existsb (String.eqb x) l.

(** [list(dict.fromkeys(l))]: the first occurrence of each name, in order. *)
Definition unique_names (l : list string) : list string :=
  fold_left (fun acc x => if mem x acc then acc else acc ++ [x]) l [].

(** A [DataFrame]: its number of rows and its columns in order, each with
    one cell per row. *)
Record DataFrame : Type := {
  nrows : nat;
  series : list (string * list value)
}.

Definition df_columns (df : DataFrame) : list string := dict_keys (series df).

(** [df[col] = cells]. *)
Definition df_set (col : string) (cells : list value) (df : DataFrame) : DataFrame :=
  {| nrows := nrows df; series := dict_set col cells (series df) |}.

(** [df[col] = v] for a scalar [v]. *)
Definition df_fill (col : string) (v : value) (df : DataFrame) : DataFrame :=
  df_set col (replicate (nrows df) v) df.

(** [df[col] = f(df[col])] when the column exists. *)
Definition df_apply (col : string) (f : list value -> list value) (df : DataFrame) : DataFrame :=
  match dict_get col (series df) with
  | Some cells => df_set col (f cells) df
  | None => df
  end.

(** [df.rename(columns=mapping)]. *)
Definition df_rename (mapping : list (string * string)) (df : DataFrame) : DataFrame :=
  {| nrows := nrows df;
     series := map (fun '(c, cells) => (default c (dict_get c mapping), cells)) (series df) |}.

(** [df[cols]], for columns that exist. *)
Definition df_select (cols : list string) (df : DataFrame) : DataFrame :=
  {| nrows := nrows df;
     series := map (fun c => (c, default [] (dict_get c (series df)))) cols |}.

(** A cell-wise [replace]. *)
Definition df_map (f : value -> value) (df : DataFrame) : DataFrame :=
  {| nrows := nrows df; series := map (fun '(c, cells) => (c, map f cells)) (series df) |}.

(** [df.to_dict(orient='records')]. *)
Definition to_records (df : DataFrame) : list record :=
  map (fun i => map (fun '(c, cells) => (c, cells !!! i)) (series df)) (seq 0 (nrows df)).


(** Every column has one cell per row, and no name is used twice. *)
Definition df_wf (df : DataFrame) : Prop :=
  Forall (fun '(_, cells) => length cells = nrows df) (series df)
  /\ NoDup (df_columns df).

(** ** Column mappings *)

Definition COLUMNS_MAPPING_LEGACY : list (string * string) := [
  ("competencia", "competence_date");
  ("data_fato_gerador", "event_date");
  ("fato_gerador", "event_trigger");
  ("tipo_lancamento", "transaction_type");
  ("descricao_lancamento", "transaction_description");
  ("valor", "gross_value");
  ("base_calculo", "calculation_base_value");
  ("percentual_taxa", "tax_percentage");
  ("pedido_associado_ifood", "ifood_order_id");
  ("pedido_associado_ifood_curto", "ifood_order_id_short");
  ("pedido_associado_externo", "external_order_id");
  ("motivo_cancelamento", "cancellation_reason");
  ("descricao_ocorrencia", "occurrence_description");
  ("data_criacao_pedido_associado", "order_creation_date");
  ("data_repasse_esperada", "expected_payment_date");
  ("valor_transacao", "transaction_value");
  ("loja_id", "store_id");
  ("loja_id_curto", "store_id_short");
  ("loja_id_externo", "store_id_external");
  ("cnpj", "cnpj");
  ("titulo", "title");
  ("data_faturamento", "billing_date");
  ("data_apuracao_inicio", "settlement_start_date");
  ("data_apuracao_fim", "settlement_end_date");
  ("valor_cesta_inicial", "initial_basket_value");
  ("valor_cesta_final", "final_basket_value");
  ("responsavel_transacao", "transaction_responsible");
  ("canal_vendas", "sales_channel");
  ("impacto_no_repasse", "payment_impact");
  ("parcela_pagamento", "payment_installment");
  ("pedido_detalhes", "order_details");
  ("metodo_pagamento", "payment_method");
  ("bandeira_pagamento", "payment_brand")
].

Definition COLUMNS_MAPPING_V3 : list (string * string) :=
  dict_update COLUMNS_MAPPING_LEGACY [
    ("pedido_detalhes", "order_details");
    ("id_saldo", "balance_id");
    ("metodo_pagamento", "payment_method");
    ("bandeira_pagamento", "payment_brand")
  ].

Definition get_mapping_for_layout (layout_version : string) : list (string * string) :=
  if String.eqb layout_version "v3" then COLUMNS_MAPPING_V3 else COLUMNS_MAPPING_LEGACY.

(** The natural key; [balance_id] is appended when the module is loaded. *)
Definition NATURAL_KEY_COLUMNS : list string :=
  let base := [
    "competence_date"; "event_date"; "transaction_type"; "transaction_description";
    "gross_value"; "transaction_value"; "ifood_order_id"; "external_order_id";
    "store_id"; "title"; "billing_date"; "settlement_start_date";
    "settlement_end_date"; "payment_installment" ] in
  if mem "balance_id" base then base else base ++ ["balance_id"].

Definition EXTRA_COLUMNS : list string :=
  [ "order_details"; "payment_method"; "payment_brand"; "balance_id"; "layout_version" ].

Definition date_columns : list string :=
  [ "competence_date"; "event_date"; "order_creation_date"; "expected_payment_date";
    "billing_date"; "settlement_start_date"; "settlement_end_date" ].

Definition id_columns : list string :=
  [ "ifood_order_id"; "ifood_order_id_short"; "external_order_id";
    "store_id"; "store_id_short"; "store_id_external"; "cnpj"; "balance_id" ].

Definition value_columns : list string :=
  [ "gross_value"; "calculation_base_value"; "tax_percentage"; "transaction_value";
    "initial_basket_value"; "final_basket_value" ].

(** The columns of the cleaned frame: the mapping's canonical names in
    order, then the extra ones not among them. *)
Definition final_columns (column_mapping : list (string * string)) : list string :=
  fold_left (fun acc extra => if mem extra acc then acc else acc ++ [extra])
            EXTRA_COLUMNS (unique_names (map snd column_mapping)).

(** ** Reading and cleaning *)

(** What pandas returns for the file. A delimited text is read with the
    semicolon and, when that raises, with the comma. A workbook is opened,
    and each worksheet parses to a frame or raises. *)
Inductive source : Type :=
  | CsvFile (semicolon comma : result DataFrame)
  | ExcelFile (workbook : result (list (string * result DataFrame))).

Definition read_source (file : source) (layout_hint : option string) : result DataFrame :=
  match file with
  | CsvFile semicolon comma =>
      match semicolon with
      | Ok df => Ok df
      | Raise _ => comma
      end
  | ExcelFile (Raise e) => Raise e
  | ExcelFile (Ok sheets) =>
      match _select_sheet_name (dict_keys sheets) layout_hint with
      | Raise e => Raise e
      | Ok selected_sheet =>
          match dict_get selected_sheet sheets with
          | Some (Raise (ValueError _)) =>
              match sheets with
              | (_, parsed) :: _ => parsed
              | [] => Raise (ValueError "no worksheet")
              end
          | Some parsed => parsed
          | None => Raise (ValueError "no worksheet")
          end
      end
  end.

Section Cleaning.

(** [pd.to_datetime(cells, errors='coerce')], one result per cell. *)
Variable to_datetime : list value -> list (option Timestamp).

Definition clean_dates (cells : list value) : list value :=
  map date_cell (to_datetime cells).

Definition clean_frame (original_df : DataFrame) (layout_hint : option string)
  : DataFrame * string :=
  let columns_lower : gset string :=
    list_to_set (map (fun col => lower (strip col)) (df_columns original_df)) in
  let layout_version := detect_layout columns_lower layout_hint in
  let column_mapping := get_mapping_for_layout layout_version in
  let df := df_map nan_to_none original_df in
  let df := df_rename column_mapping df in
  let df := fold_left (fun df col => df_apply col clean_dates df) date_columns df in
  let df := fold_left (fun df col => df_apply col (map clean_id) df) id_columns df in
  let df := fold_left (fun df col => df_apply col clean_values df) value_columns df in
  let final := final_columns column_mapping in
  let missing_cols := filter (fun c => negb (mem c (df_columns df))) final in
  let df := fold_left (fun df col => df_fill col VNone df) missing_cols df in
  let df := df_fill "layout_version" (VStr layout_version) df in
  let df := df_select final df in
  let df := df_map nan_to_none df in
  (df, layout_version).


End Cleaning.

(** ** [json.dumps]

    The encoder as the pipeline calls it: [ensure_ascii=False], items
    separated by a comma and a space, keys sorted on request. With
    [allow_nan=False] a NaN or an infinity raises; otherwise they print as
    [NaN], [Infinity] and [-Infinity]. *)
Module Json.

Definition quote : string := String "034"%char "".
Definition backslash : string := String "092"%char "".

Definition hex_char (n : nat) : ascii :=
  ascii_of_nat (if (n <? 10)%nat then 48 + n else 87 + n).

Definition escape_char (c : ascii) : string :=
  let n := nat_of_ascii c in
  if (n =? 34)%nat then backslash ++ quote
  else if (n =? 92)%nat then backslash ++ backslash
  else if (n =? 10)%nat then backslash ++ "n"
  else if (n =? 13)%nat then backslash ++ "r"
  else if (n =? 9)%nat then backslash ++ "t"
  else if (n =? 8)%nat then backslash ++ "b"
  else if (n =? 12)%nat then backslash ++ "f"
  else if (n <? 32)%nat then
    backslash ++ "u00" ++ String (hex_char (n / 16)) (String (hex_char (n mod 16)) "")
  else String c "".

Fixpoint escape (s : string) : string :=
  match s with
  | EmptyString => EmptyString
  | String c r => escape_char c ++ escape r
  end.

Definition encode_str (s : string) : string := quote ++ escape s ++ quote.

Definition encode_float (allow_nan : bool) (f : float) : option string :=
  if is_nan f then (if allow_nan then Some "NaN" else None)
  else if PrimFloat.eqb f infinity then (if allow_nan then Some "Infinity" else None)
  else if PrimFloat.eqb f neg_infinity then (if allow_nan then Some "-Infinity" else None)
  else Some (FloatRepr.repr f).

Definition encode_value (allow_nan : bool) (v : value) : option string :=
  match v with
  | VNone => Some "null"
  | VStr s => Some (encode_str s)
  | VInt z => Some (pretty z)
  | VFloat f => encode_float allow_nan f
  end.

Definition encode_item (allow_nan : bool) (kv : string * value) : option string :=
  match encode_value allow_nan (snd kv) with
  | Some t => Some (encode_str (fst kv) ++ ": " ++ t)%string
  | None => None
  end.

Fixpoint join (sep : string) (l : list string) : string :=
  match l with
  | [] => ""
  | [x] => x
  | x :: r => x ++ sep ++ join sep r
  end.

(** [sorted(d.items())] on the keys, by insertion from the right. *)
Fixpoint insert_item (kv : string * value) (l : record) : record :=
  match l with
  | [] => [kv]
  | kv' :: r => if String.leb (fst kv) (fst kv') then kv :: l else kv' :: insert_item kv r
  end.

Definition sort_items (d : record) : record := foldr insert_item [] d.

Definition dumps (allow_nan sort_keys : bool) (d : record) : option string :=
  match mapM (encode_item allow_nan) (if sort_keys then sort_items d else d) with
  | Some items => Some ("{" ++ join ", " items ++ "}")%string
  | None => None
  end.

End Json.

(** ** Digests: SHA-1 and MD5 on byte strings, and [uuid.uuid5] *)
Module Digest.

Local Open Scope Z_scope.

Definition bytes_of (s : string) : list Z :=
  map (fun c => Z.of_nat (nat_of_ascii c)) (list_ascii_of_string s).

Definition w32 (x : Z) : Z := x mod 2 ^ 32.
Definition rotl (n x : Z) : Z := w32 (Z.lor (Z.shiftl x n) (Z.shiftr x (32 - n))).
Definition not32 (x : Z) : Z := 2 ^ 32 - 1 - x.

(** The message, the byte [0x80], zeros up to 56 modulo 64, and the bit
    length on eight bytes. *)
Definition be_bytes (n : nat) (x : Z) : list Z :=
  map (fun i => Z.shiftr x (8 * Z.of_nat i) mod 256) (rev (seq 0 n)).
Definition le_bytes (n : nat) (x : Z) : list Z :=
  map (fun i => Z.shiftr x (8 * Z.of_nat i) mod 256) (seq 0 n).

Definition pad (big_endian : bool) (msg : list Z) : list Z :=
  let len := Z.of_nat (length msg) in
  let zeros := Z.to_nat ((55 - len) mod 64) in
  msg ++ [128] ++ replicate zeros 0
      ++ (if big_endian then be_bytes 8 (8 * len) else le_bytes 8 (8 * len)).

Definition be_word (bs : list Z) : Z := fold_left (fun acc x => acc * 256 + x) bs 0.
Definition le_word (bs : list Z) : Z := be_word (rev bs).

Fixpoint chunks {A} (fuel : nat) (size : nat) (l : list A) : list (list A) :=
  match fuel with
  | O => []
  | S fuel' =>
      match l with
      | [] => []
      | _ => take size l :: chunks fuel' size (drop size l)
      end
  end.

Definition words (big_endian : bool) (block : list Z) : list Z :=
  map (if big_endian then be_word else le_word) (chunks 16 4 block).

Definition hex_byte (x : Z) : string :=
  String (Json.hex_char (Z.to_nat (x / 16))) (String (Json.hex_char (Z.to_nat (x mod 16))) "").

Definition hex (bs : list Z) : string := fold_right (fun x s => hex_byte x ++ s)%string ""%string bs.

(** *** SHA-1 *)

Definition sha1_round (i : Z) (st : Z * Z * Z * Z * Z) (w : Z) : Z * Z * Z * Z * Z :=
  let '(a, b, c, d, e) := st in
  let '(f, k) :=
    if i <? 20 then (Z.lor (Z.land b c) (Z.land (not32 b) d), 0x5A827999)
    else if i <? 40 then (Z.lxor (Z.lxor b c) d, 0x6ED9EBA1)
    else if i <? 60 then
      (Z.lor (Z.lor (Z.land b c) (Z.land b d)) (Z.land c d), 0x8F1BBCDC)
    else (Z.lxor (Z.lxor b c) d, 0xCA62C1D6) in
  (w32 (rotl 5 a + f + e + k + w), a, rotl 30 b, c, d).

(** The 80 rounds over a window of the last 16 words of the schedule. *)
Fixpoint sha1_rounds (fuel : nat) (i : Z) (window : list Z) (st : Z * Z * Z * Z * Z)
  : Z * Z * Z * Z * Z :=
  match fuel with
  | O => st
  | S fuel' =>
      let w := window !!! 0%nat in
      let next := rotl 1 (Z.lxor (Z.lxor (window !!! 13%nat) (window !!! 8%nat))
                                 (Z.lxor (window !!! 2%nat) w)) in
      sha1_rounds fuel' (i + 1) (drop 1 window ++ [next]) (sha1_round i st w)
  end.

Definition sha1_block (h : Z * Z * Z * Z * Z) (block : list Z) : Z * Z * Z * Z * Z :=
  let '(h0, h1, h2, h3, h4) := h in
  let '(a, b, c, d, e) := sha1_rounds 80 0 (words true block) h in
  (w32 (h0 + a), w32 (h1 + b), w32 (h2 + c), w32 (h3 + d), w32 (h4 + e)).

Definition sha1 (msg : list Z) : list Z :=
  let padded := pad true msg in
  let '(h0, h1, h2, h3, h4) :=
    fold_left sha1_block (chunks (length padded) 64 padded)
      (0x67452301, 0xEFCDAB89, 0x98BADCFE, 0x10325476, 0xC3D2E1F0) in
  be_bytes 4 h0 ++ be_bytes 4 h1 ++ be_bytes 4 h2 ++ be_bytes 4 h3 ++ be_bytes 4 h4.

(** *** MD5 *)

Definition md5_K : list Z := [
    0xd76aa478; 0xe8c7b756; 0x242070db; 0xc1bdceee;
    0xf57c0faf; 0x4787c62a; 0xa8304613; 0xfd469501;
    0x698098d8; 0x8b44f7af; 0xffff5bb1; 0x895cd7be;
    0x6b901122; 0xfd987193; 0xa679438e; 0x49b40821;
    0xf61e2562; 0xc040b340; 0x265e5a51; 0xe9b6c7aa;
    0xd62f105d; 0x02441453; 0xd8a1e681; 0xe7d3fbc8;
    0x21e1cde6; 0xc33707d6; 0xf4d50d87; 0x455a14ed;
    0xa9e3e905; 0xfcefa3f8; 0x676f02d9; 0x8d2a4c8a;
    0xfffa3942; 0x8771f681; 0x6d9d6122; 0xfde5380c;
    0xa4beea44; 0x4bdecfa9; 0xf6bb4b60; 0xbebfbc70;
    0x289b7ec6; 0xeaa127fa; 0xd4ef3085; 0x04881d05;
    0xd9d4d039; 0xe6db99e5; 0x1fa27cf8; 0xc4ac5665;
    0xf4292244; 0x432aff97; 0xab9423a7; 0xfc93a039;
    0x655b59c3; 0x8f0ccc92; 0xffeff47d; 0x85845dd1;
    0x6fa87e4f; 0xfe2ce6e0; 0xa3014314; 0x4e0811a1;
    0xf7537e82; 0xbd3af235; 0x2ad7d2bb; 0xeb86d391 ].

Definition md5_s : list Z := [
    7; 12; 17; 22; 7; 12; 17; 22; 7; 12; 17; 22; 7; 12; 17; 22;
    5; 9; 14; 20; 5; 9; 14; 20; 5; 9; 14; 20; 5; 9; 14; 20;
    4; 11; 16; 23; 4; 11; 16; 23; 4; 11; 16; 23; 4; 11; 16; 23;
    6; 10; 15; 21; 6; 10; 15; 21; 6; 10; 15; 21; 6; 10; 15; 21 ].

Definition md5_round (m : list Z) (st : Z * Z * Z * Z) (i : nat) : Z * Z * Z * Z :=
  let '(a, b, c, d) := st in
  let iz := Z.of_nat i in
  let '(f, g) :=
    if iz <? 16 then (Z.lor (Z.land b c) (Z.land (not32 b) d), iz)
    else if iz <? 32 then (Z.lor (Z.land d b) (Z.land (not32 d) c), (5 * iz + 1) mod 16)
    else if iz <? 48 then (Z.lxor (Z.lxor b c) d, (3 * iz + 5) mod 16)
    else (Z.lxor c (Z.lor b (not32 d)), (7 * iz) mod 16) in
  let f' := w32 (f + a + md5_K !!! i + m !!! Z.to_nat g) in
  (d, w32 (b + rotl (md5_s !!! i) f'), b, c).

Definition md5_block (h : Z * Z * Z * Z) (block : list Z) : Z * Z * Z * Z :=
  let '(a0, b0, c0, d0) := h in
  let '(a, b, c, d) := fold_left (md5_round (words false block)) (seq 0 64) h in
  (w32 (a0 + a), w32 (b0 + b), w32 (c0 + c), w32 (d0 + d)).

Definition md5 (msg : list Z) : list Z :=
  let padded := pad false msg in
  let '(a, b, c, d) :=
    fold_left md5_block (chunks (length padded) 64 padded)
      (0x67452301, 0xefcdab89, 0x98badcfe, 0x10325476) in
  le_bytes 4 a ++ le_bytes 4 b ++ le_bytes 4 c ++ le_bytes 4 d.

(** [hashlib.md5(text.encode('utf-8')).hexdigest()]. *)
Definition md5_hexdigest (text : string) : string := hex (md5 (bytes_of text)).

(** *** Name-based UUIDs *)

(** [uuid.NAMESPACE_URL], 6ba7b811-9dad-11d1-80b4-00c04fd430c8. *)
Definition NAMESPACE_URL : list Z :=
  [ 0x6b; 0xa7; 0xb8; 0x11; 0x9d; 0xad; 0x11; 0xd1;
    0x80; 0xb4; 0x00; 0xc0; 0x4f; 0xd4; 0x30; 0xc8 ].

(** [str(uuid.uuid5(namespace, name))]: the first 16 bytes of the SHA-1 of
    the namespace and the name, with the version and variant bits set. *)
Definition uuid5 (namespace : list Z) (name : string) : string :=
  let h := take 16 (sha1 (namespace ++ bytes_of name)) in
  let h := alter (fun x => Z.lor (Z.land x 0x0f) 0x50) 6%nat h in
  let h := alter (fun x => Z.lor (Z.land x 0x3f) 0x80) 8%nat h in
  (hex (take 4 h) ++ "-" ++ hex (take 2 (drop 4 h)) ++ "-" ++ hex (take 2 (drop 6 h))
     ++ "-" ++ hex (take 2 (drop 8 h)) ++ "-" ++ hex (drop 10 h))%string.

End Digest.

(** ** Null-safety of records *)

(** [pd.isna(v)] holds for [None] and NaN; the infinities are tested next. *)
Definition _sanitize_value (v : value) : value :=
  match v with
  | VNone => VNone
  | VFloat f => if is_nan f then VNone else if is_inf f then VNone else v
  | _ => v
  end.

Definition _sanitize_record (d : record) : record :=
  map (fun '(k, v) => (k, _sanitize_value v)) d.


(** ** Calendar dates and period keys *)

(** [datetime.date]. *)
Record date : Type := { d_year : Z; d_month : Z; d_day : Z }.

(** [_date(year, month, 1)]: [ValueError] outside the years 1 to 9999 and
    the months 1 to 12. *)
Definition first_of_month (y m : Z) : option date :=
  if ((1 <=? y) && (y <=? 9999) && (1 <=? m) && (m <=? 12))%Z
  then Some {| d_year := y; d_month := m; d_day := 1 |}
  else None.

Definition date_ltb (a b : date) : bool :=
  ((d_year a <? d_year b)
   || ((d_year a =? d_year b)
       && ((d_month a <? d_month b)
           || ((d_month a =? d_month b) && (d_day a <? d_day b)))))%Z.

Definition date_leb (a b : date) : bool := negb (date_ltb b a).

(** [s.split(sep)] for a one-character separator. *)
Fixpoint split_on (sep : ascii) (s : string) : list string :=
  match s with
  | EmptyString => [EmptyString]
  | String c r =>
      if Ascii.eqb c sep then EmptyString :: split_on sep r
      else match split_on sep r with
           | [] => [String c EmptyString]
           | p :: ps => String c p :: ps
           end
  end.

(** Decimal digits with single underscores between them. *)
Fixpoint int_digits (s : string) (acc : Z) (after_digit : bool) : option Z :=
  match s with
  | EmptyString => if after_digit then Some acc else None
  | String c r =>
      if is_digit c then int_digits r (acc * 10 + Numeric.digit_val c)%Z true
      else if Ascii.eqb c "_"%char then (if after_digit then int_digits r acc false else None)
      else None
  end.

(** [int(s)]: white space around, an optional sign, then the digits. *)
Definition py_int (s : string) : option Z :=
  match strip s with
  | String "+"%char r => int_digits r 0%Z false
  | String "-"%char r => Z.opp <$> int_digits r 0%Z false
  | t => int_digits t 0%Z false
  end.

(** The body of the inner [try]: the key read as [YYYY-MM], the first day
    of that month and the first day of the next one. Any exception there
    skips the key. *)
Definition period_bounds (comp : string) : option (date * date) :=
  match split_on "-"%char comp with
  | [a; b] =>
      match py_int a, py_int b with
      | Some y, Some m =>
          match first_of_month y m with
          | Some month_start =>
              match (if (m =? 12)%Z then first_of_month (y + 1) 1
                     else first_of_month y (m + 1)) with
              | Some next_month_start => Some (month_start, next_month_start)
              | None => None
              end
          | None => None
          end
      | _, _ => None
      end
  | _ => None
  end.

(** The period key of a record: the first seven characters of a
    [competence_date] that is a text of at least that length. *)
Definition competence_key (rec : record) : option string :=
  match dict_get "competence_date" rec with
  | Some comp_date =>
      if truthy comp_date then
        match comp_date with
        | VStr s => if bool_decide (7 <= String.length s) then Some (substring 0 7 s) else None
        | _ => None
        end
      else None
  | None => None
  end.

(** ** The store and the status sink *)

(** Modelled from the spec: the table [ifood_conciliation] behind the
    Supabase client, of which the repository holds no code. It keeps the
    upserted records, one per [id]; [delete] removes the rows that match
    every filter, an equality filter compares texts, and the range filters
    on [competence_date] compare calendar dates (a null date matches
    none). A call that raises leaves the table as it was. *)
Module Store.

Definition table : Type := list record.

Definition text_field (k : string) (r : record) : option string :=
  match dict_get k r with
  | Some (VStr s) => Some s
  | _ => None
  end.

Definition digits_Z (s : string) : option Z :=
  if forallb is_digit (list_ascii_of_string s) && negb (String.eqb s "")
  then int_digits s 0%Z false else None.

(** The calendar date of an ISO-8601 text [YYYY-MM-DD...]. *)
Definition date_of_text (s : string) : option date :=
  if bool_decide (10 <= String.length s)
     && String.eqb (substring 4 1 s) "-" && String.eqb (substring 7 1 s) "-" then
    match digits_Z (substring 0 4 s), digits_Z (substring 5 2 s), digits_Z (substring 8 2 s) with
    | Some y, Some m, Some d => Some {| d_year := y; d_month := m; d_day := d |}
    | _, _, _ => None
    end
  else None.

Definition competence_of (r : record) : option date :=
  match text_field "competence_date" r with
  | Some s => date_of_text s
  | None => None
  end.

(** [.eq('received_file_id', file_id)]. *)
Definition of_file (file_id : string) (r : record) : bool :=
  bool_decide (text_field "received_file_id" r = Some file_id).

(** [.eq('account_id', a).gte('competence_date', lo).lt('competence_date', hi)]. *)
Definition in_period (account_id : string) (lo hi : date) (r : record) : bool :=
  bool_decide (text_field "account_id" r = Some account_id)
  && match competence_of r with
     | Some d => date_leb lo d && date_ltb d hi
     | None => false
     end.

Definition delete (matches : record -> bool) (t : table) : table :=
  filter (fun r => negb (matches r)) t.

Definition same_id (r rec : record) : bool :=
  match text_field "id" r, text_field "id" rec with
  | Some a, Some b => String.eqb a b
  | _, _ => false
  end.

(** [upsert(batch, on_conflict='id')]: a row with the same [id] is
    replaced where it stands, a new one is added. *)
Fixpoint upsert_row (rec : record) (t : table) : table :=
  match t with
  | [] => [rec]
  | r :: t' =>
      if same_id r rec then rec :: t'
      else r :: upsert_row rec t'
  end.

Definition upsert (batch : list record) (t : table) : table :=
  fold_left (fun t rec => upsert_row rec t) batch t.

End Store.

(** One row of [received_files]. *)
Record FileStatus : Type := {
  status : string;
  processed_at : option string;
  error_message : option string;
  error_details : option string
}.

(** The calls issued to the client, each with whether it went through. *)
Inductive call : Type :=
  | StatusUpdate (file_id status : string) (ok : bool)
  | DeleteByFile (file_id : string) (ok : bool)
  | DeleteByPeriod (account_id : string) (lo hi : date) (ok : bool)
  | Upsert (batch : list record) (ok : bool).

Record world : Type := {
  conciliation : Store.table;
  received_files : gmap string FileStatus;
  calls : list call
}.

(** Which calls raise in a run: the status write (by status written), the
    file-scoped delete, the period delete (by period key) and the upsert
    (by batch number, from 1). *)
Record faults : Type := {
  fail_status : string -> bool;
  fail_file_delete : bool;
  fail_period_delete : string -> bool;
  fail_upsert : nat -> bool
}.

(** The clock and the traceback text, which the run only copies. *)
Record env : Type := {
  now_utc : string;
  format_exc : exn -> string
}.

Definition log_call (c : call) (w : world) : world :=
  {| conciliation := conciliation w; received_files := received_files w;
     calls := calls w ++ [c] |}.

Definition set_table (t : Store.table) (w : world) : world :=
  {| conciliation := t; received_files := received_files w; calls := calls w |}.

(** ** The Status Reporter *)





(** ** The Identity and Hash Engine *)

(** [{k: sanitized.get(k) for k in NATURAL_KEY_COLUMNS if k in sanitized}]. *)
Definition natural_basis (sanitized : record) : record :=
  omap (fun k => match dict_get k sanitized with
                 | Some v => Some (k, v)
                 | None => None
                 end) NATURAL_KEY_COLUMNS.

(** [json.dumps(basis, ensure_ascii=False, sort_keys=True, default=str)];
    every value of a basis is encodable, so [default] is never called. *)
Definition payload (basis : record) : string :=
  default "" (Json.dumps true true basis).

(** The name hashed into the [id]: the account, a bar, and the dump of the
    basis with the row's position under [_row_index]. *)
Definition id_name (account_id : string) (basis : record) (idx : nat) : string :=
  (account_id ++ "|" ++ payload (dict_set "_row_index" (VInt (Z.of_nat idx)) basis))%string.

Definition deterministic_id (account_id : string) (basis : record) (idx : nat) : string :=
  Digest.uuid5 Digest.NAMESPACE_URL (id_name account_id basis idx).

(** The body of the first loop, for the record at position [idx]; the
    natural basis is taken again after [id] is set, as the code does. *)
Definition identify (account_id : string) (idx : nat) (rec : record) : record :=
  let sanitized := _sanitize_record rec in
  let sanitized :=
    dict_set "id" (VStr (deterministic_id account_id (natural_basis sanitized) idx)) sanitized in
  let natural_payload := payload (natural_basis sanitized) in
  dict_set "natural_hash" (VStr (Digest.md5_hexdigest natural_payload)) sanitized.

Definition records_to_insert (account_id : string) (recs : list record) : list record :=
  imap (identify account_id) recs.

(** The second loop: a record whose [id] was seen is skipped; one without
    an [id] is kept. Returns the kept records and the number skipped. *)
Fixpoint dedupe (seen_ids : gset string) (recs : list record) : list record * nat :=
  match recs with
  | [] => ([], 0)
  | rec :: rest =>
      match dict_get "id" rec with
      | Some (VStr row_id) =>
          if String.eqb row_id "" then
            let '(kept, skipped) := dedupe seen_ids rest in (rec :: kept, skipped)
          else if bool_decide (row_id ∈ seen_ids) then
            let '(kept, skipped) := dedupe seen_ids rest in (kept, S skipped)
          else
            let '(kept, skipped) := dedupe ({[ row_id ]} ∪ seen_ids) rest in
            (rec :: kept, skipped)
      | _ =>
          let '(kept, skipped) := dedupe seen_ids rest in (rec :: kept, skipped)
      end
  end.

(** ** The Period Replacer *)

Definition competences_to_delete (unique_records : list record) : gset string :=
  list_to_set (omap competence_key unique_records).

(** [sorted(competences_to_delete)]. *)
Definition sorted_keys (s : gset string) : list string :=
  merge_sort String.le (elements s).

(** One turn of the loop over the period keys. *)
Definition delete_competence (fl : faults) (account_id : string) (w : world) (comp : string)
  : world :=
  match period_bounds comp with
  | None => w
  | Some (month_start, next_month_start) =>
      if fail_period_delete fl comp then
        log_call (DeleteByPeriod account_id month_start next_month_start false) w
      else
        log_call (DeleteByPeriod account_id month_start next_month_start true)
          (set_table (Store.delete (Store.in_period account_id month_start next_month_start)
                                   (conciliation w)) w)
  end.

Definition delete_competences (fl : faults) (account_id : string)
  (unique_records : list record) (w : world) : world :=
  fold_left (delete_competence fl account_id)
            (sorted_keys (competences_to_delete unique_records)) w.

(** ** The Batch Persister *)

Definition delete_file_records (fl : faults) (file_id : string) (w : world) : world :=
  if fail_file_delete fl then log_call (DeleteByFile file_id false) w
  else log_call (DeleteByFile file_id true)
         (set_table (Store.delete (Store.of_file file_id) (conciliation w)) w).

Definition batch_size : nat := 100.

(** [unique_records[start:start + batch_size]] for [start] in steps of
    [batch_size]. *)
Definition batches (unique_records : list record) : list (list record) :=
  Digest.chunks (length unique_records) batch_size unique_records.

(** A batch that goes through: the rows are stored and the call logged. *)
Definition store_batch (w : world) (batch : list record) : world :=
  log_call (Upsert batch true) (set_table (Store.upsert batch (conciliation w)) w).

(** The upsert loop from batch number [batch_idx]: the first batch that
    raises ends it, and the exception goes up. *)
Fixpoint upsert_batches (fl : faults) (batch_idx : nat) (bs : list (list record)) (w : world)
  : world * result unit :=
  match bs with
  | [] => (w, Ok tt)
  | batch :: rest =>
      if fail_upsert fl batch_idx then
        (log_call (Upsert batch false) w, Raise (StoreError "upsert"))
      else
        upsert_batches fl (S batch_idx) rest (store_batch w batch)
  end.

(** The records as the loops receive them: the frame with [account_id] and
    [received_file_id] set on every row. *)
Definition tagged_records (df : DataFrame) (account_id file_id : string) : list record :=
  to_records (df_fill "received_file_id" (VStr file_id)
                (df_fill "account_id" (VStr account_id) df)).

Definition unique_records (df : DataFrame) (account_id file_id : string) : list record :=
  fst (dedupe ∅ (records_to_insert account_id (tagged_records df account_id file_id))).

Definition save_data_in_batches (fl : faults) (w : world) (df : DataFrame)
  (account_id file_id : string) : world * result unit :=
  let w := delete_file_records fl file_id w in
  let unique := unique_records df account_id file_id in
  let w := delete_competences fl account_id unique w in
  upsert_batches fl 1 (batches unique) w.

(** ** The Orchestrator *)

Section Orchestrator.

Variable to_datetime : list value -> list (option Timestamp).




End Orchestrator.

(** ** Inputs of the worked examples *)

(** A date reader for the examples: it knows the texts [YYYY-MM-DD] and
    gives [NaT] for every other cell. *)
Definition iso_to_datetime (cells : list value) : list (option Timestamp) :=
  map (fun v =>
         match v with
         | VStr s =>
             match Store.date_of_text (s ++ "T") with
             | Some d =>
                 if bool_decide (String.length s = 10) then
                   Some {| year := d_year d; month := d_month d; day := d_day d;
                           hour := 0; minute := 0; second := 0; nanosecond := 0 |}
                 else None
             | None => None
             end
         | _ => None
         end) cells.

(** The two-row legacy file of the specification's scenario, with the
    amount written [valor]. *)
Definition scenario_frame (valor : string) : DataFrame :=
  {| nrows := 2;
     series := [ ("competencia", [VStr "2024-06-01"; VStr "2024-06-01"]);
                 ("valor", [VStr valor; VStr valor]);
                 ("loja_id", [VStr "10.0"; VStr "10.0"]) ] |}.

Definition no_faults : faults :=
  {| fail_status := fun _ => false; fail_file_delete := false;
     fail_period_delete := fun _ => false; fail_upsert := fun _ => false |}.

Definition example_env : env :=
  {| now_utc := "2024-07-02T10:00:00+00:00"; format_exc := fun _ => "Traceback" |}.

Definition pending : FileStatus :=
  {| status := "pending"; processed_at := None; error_message := None; error_details := None |}.

(** ** Notions used in the statements *)

(** The [id]s of a list of records, as a set. *)
Definition id_set (recs : list record) : gset string :=
  list_to_set (omap (Store.text_field "id") recs).

(** The record carries a non-empty text [id]. *)
Definition has_id (rec : record) : Prop :=
  ∃ row_id, Store.text_field "id" rec = Some row_id ∧ row_id ≠ "".

(** The names hashed into the [id]s of a file, row by row. *)
Definition id_names (account_id : string) (recs : list record) : list string :=
  imap (fun idx rec => id_name account_id (natural_basis (_sanitize_record rec)) idx) recs.

(** The name-based UUID sends no two of the given names to one value. *)
Definition collision_free (names : list string) : Prop :=
  ∀ a b, a ∈ names → b ∈ names →
         Digest.uuid5 Digest.NAMESPACE_URL a = Digest.uuid5 Digest.NAMESPACE_URL b → a = b.

(** The [competence_date] of the record gives no period key: it is
    missing or null, or it is not a text of at least seven characters. *)
Definition no_period_key (rec : record) : Prop :=
  match dict_get "competence_date" rec with
  | Some (VStr s) => String.length s < 7
  | _ => True
  end.

(** The text of one item of a dump that allows NaN. *)
Definition item_text (kv : string * value) : string :=
  default "" (Json.encode_item true kv).

Fixpoint all_digits (s : string) : bool :=
  match s with
  | EmptyString => true
  | String c r => is_digit c && all_digits r
  end.

(** The text is not empty and does not begin with a digit. *)
Definition stops_digits (s : string) : bool :=
  match s with
  | EmptyString => false
  | String c _ => negb (is_digit c)
  end.

(** Two frames that agree on the natural key, row by row, and differ in
    other columns; a NaN in one is a null in the other. *)
Definition ledger_a : DataFrame :=
  {| nrows := 2;
     series := [ ("competence_date", [VStr "2024-06-01T00:00:00"; VNone]);
                 ("gross_value", [VFloat 1234.56; VFloat nan]);
                 ("cnpj", [VStr "1"; VStr "2"]) ] |}.

Definition ledger_b : DataFrame :=
  {| nrows := 2;
     series := [ ("cnpj", [VStr "3"; VStr "4"]);
                 ("gross_value", [VFloat 1234.56; VNone]);
                 ("competence_date", [VStr "2024-06-01T00:00:00"; VNone]);
                 ("sales_channel", [VStr "app"; VStr "app"]) ] |}.

(** The call is a period-scoped delete. *)
Definition is_period_delete (c : call) : bool :=
  match c with
  | DeleteByPeriod _ _ _ _ => true
  | _ => false
  end.

(** No batch of the list raises, the first one having number [1]. *)
Definition all_batches_saved (fl : faults) (bs : list (list record)) : Prop :=
  ∀ j, j < length bs → fail_upsert fl (1 + j) = false.

(** A frame whose [competence_date]s give no period key: a null, a text
    of four characters and a number. *)
Definition undated_frame : DataFrame :=
  {| nrows := 3;
     series := [ ("competence_date", [VNone; VStr "2024"; VInt 20240601]);
                 ("gross_value", [VFloat 10; VFloat 20; VFloat 30]) ] |}.

Definition empty_world : world :=
  {| conciliation := []; received_files := ∅; calls := [] |}.

(** *** Months of the calendar *)

(** The [competence_date] of the record is null, or a text [YYYY-MM-DD...]
    of a month that has a next month in the calendar of [datetime.date]
    (the years 1 to 9998). *)
Definition dated (rec : record) : Prop :=
  match dict_get "competence_date" rec with
  | None | Some VNone => True
  | Some (VStr s) =>
      match Store.date_of_text s with
      | Some d => (1 <= d_year d <= 9998)%Z ∧ (1 <= d_month d <= 12)%Z
      | None => False
      end
  | Some _ => False
  end.

(** The year and month of the dated records of a list. *)
Definition months_of (recs : list record) : list (Z * Z) :=
  omap (fun rec => (fun d => (d_year d, d_month d)) <$> Store.competence_of rec) recs.

Definition month_start (ym : Z * Z) : date :=
  {| d_year := fst ym; d_month := snd ym; d_day := 1 |}.

(** December rolls over to January of the next year. *)
Definition next_month_start (ym : Z * Z) : date :=
  if (snd ym =? 12)%Z then {| d_year := fst ym + 1; d_month := 1; d_day := 1 |}
  else {| d_year := fst ym; d_month := snd ym + 1; d_day := 1 |}.

(** The stored date of the row lies in the half-open interval from the
    first day of the month to the first day of the next one. *)
Definition in_month (ym : Z * Z) (r : record) : bool :=
  match Store.competence_of r with
  | Some d => date_leb (month_start ym) d && date_ltb d (next_month_start ym)
  | None => false
  end.

(** The row belongs to the account and its date lies in one of the months. *)
Definition replaced (account_id : string) (months : list (Z * Z)) (r : record) : bool :=
  bool_decide (Store.text_field "account_id" r = Some account_id)
  && existsb (fun ym => in_month ym r) months.

(** The row matches the delete issued for the period key, if one is. *)
Definition key_matches (account_id comp : string) (r : record) : bool :=
  match period_bounds comp with
  | Some (lo, hi) => Store.in_period account_id lo hi r
  | None => false
  end.

(** A file with rows of June and December 2024 and a row without date,
    and a table with rows around those months. *)
Definition two_month_frame : DataFrame :=
  {| nrows := 3;
     series := [ ("competence_date",
                  [VStr "2024-06-01T00:00:00"; VStr "2024-12-15T00:00:00"; VNone]);
                 ("gross_value", [VFloat 10; VFloat 20; VFloat 30]) ] |}.

Definition stored_row (row_id account_id competence : string) : record :=
  [ ("id", VStr row_id); ("account_id", VStr account_id);
    ("competence_date", VStr competence) ].

Definition stored_world : world :=
  {| conciliation :=
       [ stored_row "a" "acc-1" "2024-05-31"; stored_row "b" "acc-1" "2024-06-01";
         stored_row "c" "acc-1" "2024-06-30"; stored_row "d" "acc-1" "2024-07-01";
         stored_row "e" "acc-2" "2024-06-15"; stored_row "f" "acc-1" "2024-12-31";
         stored_row "g" "acc-1" "2025-01-01";
         [ ("id", VStr "h"); ("account_id", VStr "acc-1"); ("competence_date", VNone) ] ];
     received_files := ∅;
     calls := [] |}.

(** ** Helpers of the module *)

(** [chunked(seq, size)] for a size that is not negative, with the chunks
    it yields collected in order: [range(0, len(seq), size)] raises for a
    zero step when the generator is first advanced. *)
Definition chunked {A} (seq : list A) (size : nat) : result (list (list A)) :=
  if (size =? 0)%nat then Raise (ValueError "range() arg 3 must not be zero")
  else Ok (Digest.chunks (length seq) size seq).

(** [total_batches] of the upsert loop. *)
Definition total_batches (unique_records : list record) : nat :=
  match unique_records with
  | [] => 0
  | _ => (length unique_records + batch_size - 1) / batch_size
  end.



(** ** Notions used for the Field Cleaner *)

(** How often the character occurs in the text. *)
Fixpoint count_char (c : ascii) (s : string) : nat :=
  match s with
  | EmptyString => 0
  | String x r => (if Ascii.eqb x c then 1 else 0) + count_char c r
  end.

(** A cell of a monetary column after [pd.to_numeric] and the replacement
    of the infinities: an integer or a float that is not infinite. *)
Definition amount_cell (v : value) : bool :=
  match v with
  | VInt _ => true
  | VFloat f => negb (is_inf f)
  | _ => false
  end.

Definition is_int_cell (v : value) : bool :=
  match v with VInt _ => true | _ => false end.

Definition is_float_cell (v : value) : bool :=
  match v with VFloat _ => true | _ => false end.

(** ** Notions used for the cleaned frame *)

(** The layout a frame is read under ([columns_lower] and
    [detect_layout] in [read_and_clean_data]). *)
Definition detected_layout (original_df : DataFrame) (layout_hint : option string) : string :=
  detect_layout
    (list_to_set (map (fun col => lower (strip col)) (df_columns original_df)))
    layout_hint.

(** What a cell of the named column of a cleaned frame may hold: never a
    NaN; in a date column a null or the ISO text of a timestamp; in an
    identifier column a null or a text other than [None]; in a monetary
    column a null, an integer or a finite float. *)
Definition typed_cell (col : string) (v : value) : Prop :=
  nan_to_none v = v
  ∧ (col ∈ date_columns → v = VNone ∨ ∃ ts, v = VStr (isoformat ts))
  ∧ (col ∈ id_columns → v = VNone ∨ ∃ s, v = VStr s ∧ s ≠ "None")
  ∧ (col ∈ value_columns →
     v = VNone ∨ is_int_cell v = true ∨ (is_float_cell v = true ∧ json_safe v = true)).

(** A file with a header in capitals, an unknown column and a column of
    infinities under a name the cleaner only passes through. *)
Definition odd_frame : DataFrame :=
  {| nrows := 2;
     series := [ ("Competencia", [VStr "2024-06-01"; VStr "2024-06-02"]);
                 ("valor", [VStr "R$ 10,50"; VFloat infinity]);
                 ("titulo", [VFloat infinity; VFloat nan]);
                 ("nota", [VStr "a"; VStr "b"]) ] |}.

(** * Properties *)

Set Warnings "-inexact-float".

(** ** Layout detection and worksheet selection *)

Lemma normalize_layout_hint_Some (s : string) :
  normalize_layout_hint (Some s) =
    if bool_decide (lower (strip s) = "legacy" ∨ lower (strip s) = "v3")
    then Some (lower (strip s)) else None.
Proof.
  destruct s as [|c s]; [reflexivity|].
  unfold normalize_layout_hint.
  generalize (lower (strip (String c s))). intros h.
  rewrite (bool_decide_ext _ (h = "legacy" ∨ h = "v3")) by set_solver. done.
Qed.

Lemma V3_MARKERS_subseteq (columns : gset string) :
  V3_MARKERS ⊆ columns ↔
  "pedido_detalhes" ∈ columns ∧ "id_saldo" ∈ columns
  ∧ "metodo_pagamento" ∈ columns ∧ "bandeira_pagamento" ∈ columns.
Proof. unfold V3_MARKERS. set_solver. Qed.

Example detect_layout_v3_columns :
  detect_layout {[ "pedido_detalhes"; "id_saldo"; "metodo_pagamento";
                   "bandeira_pagamento"; "valor" ]} None = "v3".
Proof. vm_compute. reflexivity. Qed.

Example detect_layout_hint_wins :
  detect_layout {[ "pedido_detalhes"; "id_saldo"; "metodo_pagamento";
                   "bandeira_pagamento" ]} (Some "legacy") = "legacy".
Proof. vm_compute. reflexivity. Qed.

(** C7, as the code has it. The hint is trimmed and lower-cased before it
    is compared: when the result is [legacy] or [v3] the detector returns
    it; otherwise (no hint, or any other text) it returns [v3] exactly when
    the column set holds the four v3 markers, and [legacy] exactly when it
    does not. *)
Theorem detect_layout_hint_then_markers (columns : gset string) (layout_hint : option string) :
  (∀ s, layout_hint = Some s →
        lower (strip s) = "legacy" ∨ lower (strip s) = "v3" →
        detect_layout columns layout_hint = lower (strip s))
  ∧ ((layout_hint = None
      ∨ ∃ s, layout_hint = Some s ∧ lower (strip s) ≠ "legacy" ∧ lower (strip s) ≠ "v3") →
     (detect_layout columns layout_hint = "v3" ↔
        "pedido_detalhes" ∈ columns ∧ "id_saldo" ∈ columns
        ∧ "metodo_pagamento" ∈ columns ∧ "bandeira_pagamento" ∈ columns)
     ∧ (detect_layout columns layout_hint = "legacy" ↔
        ¬ ("pedido_detalhes" ∈ columns ∧ "id_saldo" ∈ columns
           ∧ "metodo_pagamento" ∈ columns ∧ "bandeira_pagamento" ∈ columns))).
Proof.
  split.
  - intros s -> Hs. unfold detect_layout.
    rewrite normalize_layout_hint_Some, bool_decide_eq_true_2 by done. done.
  - intros Hno.
    assert (normalize_layout_hint layout_hint = None) as Hn.
    { destruct Hno as [->|(s & -> & H1 & H2)]; [done|].
      rewrite normalize_layout_hint_Some, bool_decide_eq_false_2; [done|].
      intros [?|?]; done. }
    unfold detect_layout. rewrite Hn, <- V3_MARKERS_subseteq.
    case_bool_decide; split; split; try done; intros; by exfalso.
Qed.

(** C7, the claim as worded fails: a hint that is not the literal [v3]
    (here with a leading blank and an upper-case letter) still decides
    the layout, on a column set without the markers. *)
Lemma detect_layout_hint_not_literal :
  Some " V3" ≠ Some "legacy" ∧ Some " V3" ≠ Some "v3"
  ∧ "id_saldo" ∉ (∅ : gset string)
  ∧ detect_layout ∅ (Some " V3") = "v3".
Proof. repeat split; try done. Qed.

(** C8, as the code has it. With the hint trimmed and lower-cased: an
    empty list raises [ValueError]; a single worksheet is always the one
    selected; with more than one worksheet the first is selected when the
    hint is [v3] and the second in every other case (hint [legacy], no
    hint, or any other text). *)
Theorem select_sheet_name_cases (sheet_names : list string) (layout_hint : option string) :
  (sheet_names = [] →
     ∃ msg, _select_sheet_name sheet_names layout_hint = Raise (ValueError msg))
  ∧ (∀ only, sheet_names = [only] →
       _select_sheet_name sheet_names layout_hint = Ok only)
  ∧ (∀ first second rest, sheet_names = first :: second :: rest →
       (normalize_layout_hint layout_hint = Some "v3" →
          _select_sheet_name sheet_names layout_hint = Ok first)
       ∧ (normalize_layout_hint layout_hint ≠ Some "v3" →
          _select_sheet_name sheet_names layout_hint = Ok second))
  ∧ (∀ s, layout_hint = Some s →
       (normalize_layout_hint layout_hint = Some "v3" ↔ lower (strip s) = "v3")
       ∧ (normalize_layout_hint layout_hint = Some "legacy" ↔ lower (strip s) = "legacy")).
Proof.
  split; [|split; [|split]].
  - intros ->. eexists. reflexivity.
  - intros only ->. unfold _select_sheet_name. simpl.
    repeat case_bool_decide; simpl; try done; lia.
  - intros first second rest ->. unfold _select_sheet_name. simpl.
    split; intros Hh.
    + rewrite Hh. reflexivity.
    + repeat case_bool_decide; simpl; try done; lia.
  - intros s ->. rewrite normalize_layout_hint_Some.
    generalize (lower (strip s)). intros h.
    case_bool_decide as Hh; (split; split; intros Heq); simplify_eq; try done; tauto.
Qed.

(** C8, the claim as worded fails: with the hint [legacy] and a single
    worksheet there is no second worksheet, and the first is returned. *)
Lemma select_sheet_legacy_single_sheet :
  normalize_layout_hint (Some "legacy") = Some "legacy"
  ∧ _select_sheet_name ["Dados"] (Some "legacy") = Ok "Dados"
  ∧ ["Dados"] !! 1 = (None : option string).
Proof. repeat split. Qed.

(** ** The Field Cleaner *)

Example value_text_examples :
  map value_text [VStr "1.234,56"; VStr "1234,56"; VStr "R$ 10,5"; VFloat 1234.56; VNone]
  = ["1.234.56"; "1234.56"; "10.5"; "1234.56"; ""].
Proof. vm_compute. reflexivity. Qed.

Example parse_examples :
  map Numeric.parse ["1234.56"; "1.234.56"; "-12.5"; ""; "10"]
  = [Numeric.PFloat 1234.56; Numeric.PFail; Numeric.PFloat (-12.5); Numeric.PFail;
     Numeric.PInt 10 10].
Proof. vm_compute. reflexivity. Qed.

Example clean_id_examples :
  map clean_id [VStr "10.0"; VFloat 10; VInt 10; VNone; VStr "None"; VStr "A-1"]
  = [VStr "10"; VStr "10"; VStr "10"; VNone; VNone; VStr "A-1"].
Proof. vm_compute. reflexivity. Qed.

(** C1, as the code has it. In a legacy file, a monetary cell [1234,56]
    cleans to the float 1234.56 and an identifier cell [10.0] to the text
    [10]; a monetary cell [1.234,56] becomes [1.234.56] once the comma is a
    period, which is not a number, and cleans to null. *)
Theorem field_cleaner_scenario (to_datetime : list value → list (option Timestamp)) :
  let cleaned valor := to_records (fst (clean_frame to_datetime (scenario_frame valor) None)) in
  let fields (r : record) := (dict_get "gross_value" r, dict_get "store_id" r) in
  map fields (cleaned "1234,56")
    = [ (Some (VFloat 1234.56), Some (VStr "10")); (Some (VFloat 1234.56), Some (VStr "10")) ]
  ∧ map fields (cleaned "1.234,56")
    = [ (Some VNone, Some (VStr "10")); (Some VNone, Some (VStr "10")) ]
  ∧ value_text (VStr "1.234,56") = "1.234.56"
  ∧ clean_values [VStr "1.234,56"] = [VFloat nan]
  ∧ clean_values [VStr "1234,56"] = [VFloat 1234.56]
  ∧ clean_id (VStr "10.0") = VStr "10".
Proof.
  cbv zeta. unfold clean_frame, scenario_frame.
  repeat split; vm_compute; reflexivity.
Qed.

(** C1, the claim as worded fails: the cell [1.234,56] of the scenario
    does not clean to 1234.56 but to null. *)
Lemma gross_value_with_thousands_separator :
  map (dict_get "gross_value")
      (to_records (fst (clean_frame iso_to_datetime (scenario_frame "1.234,56") None)))
    = [Some VNone; Some VNone]
  ∧ Some VNone ≠ Some (VFloat 1234.56).
Proof. split; [vm_compute; reflexivity | discriminate]. Qed.

(** ** Dictionaries, frames and records *)

Lemma dict_get_set_eq {A} k (v : A) d : dict_get k (dict_set k v d) = Some v.
Proof.
  induction d as [|[k' v'] d IH]; simpl.
  - by rewrite String.eqb_refl.
  - destruct (String.eqb_spec k k') as [->|Hne]; simpl.
    + by rewrite String.eqb_refl.
    + destruct (String.eqb_spec k k'); done.
Qed.

Lemma dict_get_set_ne {A} k k' (v : A) d :
  k ≠ k' → dict_get k (dict_set k' v d) = dict_get k d.
Proof.
  intros Hne. induction d as [|[k'' v''] d IH]; simpl.
  - destruct (String.eqb_spec k k'); done.
  - destruct (String.eqb_spec k' k'') as [->|Hne']; simpl.
    + destruct (String.eqb_spec k k''); done.
    + destruct (String.eqb_spec k k''); done.
Qed.

Lemma dict_get_Some_elem_of {A} k (v : A) d : dict_get k d = Some v → (k, v) ∈ d.
Proof.
  induction d as [|[k' v'] d IH]; simpl; [done|].
  destruct (String.eqb_spec k k') as [->|Hne].
  - intros [= ->]. left.
  - intros H. right. by apply IH.
Qed.

Lemma dict_get_None_keys {A} k (d : list (string * A)) :
  dict_get k d = None ↔ k ∉ dict_keys d.
Proof.
  induction d as [|[k' v'] d IH]; simpl.
  - split; [intros _; apply not_elem_of_nil | done].
  - rewrite not_elem_of_cons. destruct (String.eqb_spec k k') as [->|Hne]; simpl.
    + split; [done | intros [? _]; done].
    + rewrite IH. tauto.
Qed.

(** A new key goes last. *)
Lemma dict_set_fresh {A} k (v : A) d : k ∉ dict_keys d → dict_set k v d = d ++ [(k, v)].
Proof.
  induction d as [|[k' v'] d IH]; simpl; [done|].
  rewrite not_elem_of_cons. intros [Hne Hd].
  destruct (String.eqb_spec k k'); [done|]. by rewrite IH.
Qed.

Lemma dict_get_sanitize k d :
  dict_get k (_sanitize_record d) = _sanitize_value <$> dict_get k d.
Proof.
  induction d as [|[k' v'] d IH]; simpl; [done|].
  destruct (String.eqb k k'); done.
Qed.

Lemma sanitize_dict_set k v d :
  _sanitize_record (dict_set k v d) = dict_set k (_sanitize_value v) (_sanitize_record d).
Proof.
  induction d as [|[k' v'] d IH]; simpl; [done|].
  destruct (String.eqb k k'); simpl; [done|]. by rewrite IH.
Qed.

Lemma mem_spec x l : mem x l = true ↔ x ∈ l.
Proof.
  unfold mem. rewrite existsb_exists. split.
  - intros (y & Hy & Heq). apply String.eqb_eq in Heq as ->. by apply list_elem_of_In.
  - intros Hx. exists x. split; [by apply list_elem_of_In | apply String.eqb_refl].
Qed.

(** A record of a frame reads the cell of its row in every column. *)
Lemma to_records_lookup df i :
  i < nrows df →
  to_records df !! i = Some (map (fun '(c, cells) => (c, cells !!! i)) (series df)).
Proof.
  intros Hi. unfold to_records. rewrite list_lookup_fmap.
  rewrite lookup_seq_lt by done. done.
Qed.

Lemma length_to_records df : length (to_records df) = nrows df.
Proof. unfold to_records. by rewrite length_map, length_seq. Qed.

(** Setting a column to a scalar sets the field in every record. *)
Lemma to_records_df_fill c v df :
  to_records (df_fill c v df) = map (dict_set c v) (to_records df).
Proof.
  unfold to_records, df_fill, df_set. simpl. rewrite map_map.
  apply map_ext_in. intros i Hi. apply in_seq in Hi.
  generalize (series df). intros s.
  induction s as [|[c' cells] s IH]; simpl.
  - f_equal. f_equal. apply list_lookup_total_correct, lookup_replicate_2. lia.
  - destruct (String.eqb c c'); simpl.
    + f_equal. f_equal. apply list_lookup_total_correct, lookup_replicate_2. lia.
    + by rewrite IH.
Qed.

(** ** The calls of a run *)

Section Run.

Context (ev : env) (fl : faults).





Lemma delete_file_records_calls file_id w :
  calls (delete_file_records fl file_id w)
  = calls w ++ [DeleteByFile file_id (negb (fail_file_delete fl))].
Proof. unfold delete_file_records. by destruct (fail_file_delete fl). Qed.


Lemma delete_competence_files account_id w comp :
  received_files (delete_competence fl account_id w comp) = received_files w.
Proof.
  unfold delete_competence. destruct (period_bounds comp) as [[lo hi]|]; [|done].
  by destruct (fail_period_delete fl comp).
Qed.

Lemma delete_competences_files account_id unique w :
  received_files (delete_competences fl account_id unique w) = received_files w.
Proof.
  unfold delete_competences. generalize (sorted_keys (competences_to_delete unique)).
  intros ks. revert w. induction ks as [|k ks IH]; intros w; [done|].
  simpl. rewrite IH. apply delete_competence_files.
Qed.

Lemma store_batch_files w batch : received_files (store_batch w batch) = received_files w.
Proof. done. Qed.


(** When no batch raises, every batch is stored, in order. *)
Lemma upsert_batches_all_stored i bs w :
  (∀ j, j < length bs → fail_upsert fl (i + j) = false) →
  upsert_batches fl i bs w = (fold_left store_batch bs w, Ok tt).
Proof.
  revert i w. induction bs as [|b bs IH]; intros i w Hok; [done|].
  simpl. rewrite <- (Nat.add_0_r i) at 1. rewrite Hok by (simpl; lia).
  apply IH. intros j Hj. replace (S i + j) with (i + S j) by lia.
  apply Hok. simpl. lia.
Qed.

(** The first batch that raises is attempted and logged as failed; the
    batches before it are stored, and none after it is attempted. *)
Lemma upsert_batches_first_failure i bs w j batch :
  bs !! j = Some batch →
  fail_upsert fl (i + j) = true →
  (∀ j', j' < j → fail_upsert fl (i + j') = false) →
  upsert_batches fl i bs w
  = (log_call (Upsert batch false) (fold_left store_batch (take j bs) w),
     Raise (StoreError "upsert")).
Proof.
  revert i w j. induction bs as [|b bs IH]; intros i w j Hj Hfail Hbefore; [done|].
  destruct j as [|j]; simpl in *.
  - simplify_eq. rewrite Nat.add_0_r in Hfail. by rewrite Hfail.
  - rewrite <- (Nat.add_0_r i) at 1. rewrite Hbefore by lia.
    apply IH; [done| |].
    + by replace (S i + j) with (i + S j) by lia.
    + intros j' Hj'. replace (S i + j') with (i + S j') by lia. apply Hbefore. lia.
Qed.

(** The loop either stores every batch or stops at a first failure. *)
Lemma upsert_batches_cases i (bs : list (list record)) :
  (∀ j, j < length bs → fail_upsert fl (i + j) = false)
  ∨ ∃ j batch, bs !! j = Some batch ∧ fail_upsert fl (i + j) = true
               ∧ ∀ j', j' < j → fail_upsert fl (i + j') = false.
Proof.
  revert i. induction bs as [|b bs IH]; intros i.
  - left. intros j Hj. simpl in Hj. lia.
  - destruct (fail_upsert fl i) eqn:Hi.
    + right. exists 0, b. rewrite Nat.add_0_r. repeat split; [done|]. intros; lia.
    + destruct (IH (S i)) as [Hok|(j & batch & Hj & Hfail & Hbefore)].
      * left. intros [|j] Hj; [by rewrite Nat.add_0_r|].
        replace (i + S j) with (S i + j) by lia. apply Hok. simpl in Hj. lia.
      * right. exists (S j), batch. repeat split; [done| |].
        { by replace (i + S j) with (S i + j) by lia. }
        intros [|j'] Hj'; [by rewrite Nat.add_0_r|].
        replace (i + S j') with (S i + j') by lia. apply Hbefore. lia.
Qed.

End Run.

(** ** The Identity and Hash Engine *)

Lemma omap_ext_elem_of {A B} (f g : A → option B) (l : list A) :
  (∀ x, x ∈ l → f x = g x) → omap f l = omap g l.
Proof.
  induction l as [|x l IH]; intros Hfg; [done|].
  csimpl. rewrite (Hfg x) by left. rewrite IH; [done|].
  intros y Hy. apply Hfg. by right.
Qed.

Lemma natural_basis_ext d d' :
  (∀ k, k ∈ NATURAL_KEY_COLUMNS → dict_get k d = dict_get k d') →
  natural_basis d = natural_basis d'.
Proof.
  intros Heq. unfold natural_basis. apply omap_ext_elem_of.
  intros k Hk. by rewrite (Heq k Hk).
Qed.

Lemma natural_basis_dict_set k v d :
  k ∉ NATURAL_KEY_COLUMNS → natural_basis (dict_set k v d) = natural_basis d.
Proof.
  intros Hk. apply natural_basis_ext. intros k' Hk'.
  apply dict_get_set_ne. intros ->. done.
Qed.

Lemma natural_basis_keys d kv :
  kv ∈ natural_basis d → kv.1 ∈ NATURAL_KEY_COLUMNS.
Proof.
  unfold natural_basis. rewrite list_elem_of_omap.
  intros (k & Hk & Hkv). destruct (dict_get k d); by simplify_eq.
Qed.

Lemma not_natural_key k : mem k NATURAL_KEY_COLUMNS = false → k ∉ NATURAL_KEY_COLUMNS.
Proof. intros Hm Hk. apply mem_spec in Hk. congruence. Qed.

Lemma identify_id account_id idx rec :
  Store.text_field "id" (identify account_id idx rec)
  = Some (deterministic_id account_id (natural_basis (_sanitize_record rec)) idx).
Proof.
  unfold identify, Store.text_field.
  rewrite dict_get_set_ne by done. by rewrite dict_get_set_eq.
Qed.


Lemma identify_get account_id idx rec k :
  k ≠ "id" → k ≠ "natural_hash" →
  dict_get k (identify account_id idx rec) = _sanitize_value <$> dict_get k rec.
Proof.
  intros H1 H2. unfold identify.
  rewrite !dict_get_set_ne by done. apply dict_get_sanitize.
Qed.

(** The two columns set by the persister are not part of the natural key. *)
Lemma tagged_records_eq df account_id file_id :
  tagged_records df account_id file_id
  = map (fun r => dict_set "received_file_id" (VStr file_id)
                    (dict_set "account_id" (VStr account_id) r)) (to_records df).
Proof.
  unfold tagged_records. rewrite !to_records_df_fill, map_map. done.
Qed.

Lemma natural_basis_tagged account_id file_id r :
  natural_basis (_sanitize_record (dict_set "received_file_id" (VStr file_id)
                                     (dict_set "account_id" (VStr account_id) r)))
  = natural_basis (_sanitize_record r).
Proof.
  rewrite !sanitize_dict_set, !natural_basis_dict_set; [done|..];
    by apply not_natural_key.
Qed.

Lemma imap_ext_Forall2 {A B C} (R : A → B → Prop) (f : nat → A → C) (g : nat → B → C) l l' :
  Forall2 R l l' → (∀ i x y, R x y → f i x = g i y) → imap f l = imap g l'.
Proof.
  intros HR. revert f g. induction HR as [|x y l l' Hxy HR IH]; intros f g Hfg; [done|].
  simpl. f_equal; [by apply Hfg|]. apply IH. intros i ???. by apply Hfg.
Qed.

Lemma records_to_insert_ids account_id file_id df :
  map (Store.text_field "id")
      (records_to_insert account_id (tagged_records df account_id file_id))
  = imap (fun idx r =>
            Some (deterministic_id account_id (natural_basis (_sanitize_record r)) idx))
         (to_records df).
Proof.
  unfold records_to_insert. rewrite tagged_records_eq.
  generalize (to_records df). intros l.
  rewrite imap_fmap. rewrite fmap_imap by done. 
  apply imap_ext. intros i r _. simpl.
  by rewrite identify_id, natural_basis_tagged.
Qed.

(** ** The names behind the ids *)

Lemma append_nil (t : string) : ("" ++ t = t)%string.
Proof. reflexivity. Qed.

Lemma append_cons c (a t : string) : (String c a ++ t = String c (a ++ t))%string.
Proof. reflexivity. Qed.

Lemma append_assoc (a b c : string) : ((a ++ b) ++ c = a ++ (b ++ c))%string.
Proof. induction a as [|x a IH]; [done|]. by rewrite !append_cons, IH. Qed.

(** A run of digits followed by a character that is not a digit has one
    reading. *)
Lemma digits_then_stop (a b t t' : string) :
  all_digits a = true → all_digits b = true →
  stops_digits t = true → stops_digits t' = true →
  (a ++ t = b ++ t')%string → a = b.
Proof.
  revert b. induction a as [|c a IH]; intros [|c' b] Ha Hb Ht Ht' Heq;
    rewrite ?append_nil, ?append_cons in Heq; simpl in *.
  - done.
  - subst t. simpl in Ht. apply andb_prop in Hb as [Hc _].
    rewrite Hc in Ht. done.
  - subst t'. simpl in Ht'. apply andb_prop in Ha as [Hc _].
    rewrite Hc in Ht'. done.
  - apply andb_prop in Ha as [_ Ha]. apply andb_prop in Hb as [_ Hb].
    injection Heq as -> Heq. f_equal. by apply IH.
Qed.

Lemma pretty_N_char_digit x : is_digit (pretty_N_char x) = true.
Proof. unfold pretty_N_char. by repeat case_match. Qed.

Lemma pretty_N_go_digits x s :
  all_digits s = true → all_digits (pretty_N_go x s) = true.
Proof.
  revert s. induction (N.lt_wf_0 x) as [x _ IH]; intros s Hs.
  destruct (decide (x = 0)%N) as [->|Hx]; [by rewrite pretty_N_go_0|].
  rewrite pretty_N_go_step by lia.
  apply IH; [apply N.div_lt; lia|].
  simpl. by rewrite pretty_N_char_digit.
Qed.

Lemma pretty_nat_digits (n : nat) : all_digits (pretty (Z.of_nat n)) = true.
Proof.
  unfold pretty, pretty_Z. destruct (Z.of_nat n) as [|p|p] eqn:Hn; [done| |lia].
  unfold pretty, pretty_positive, pretty, pretty_N.
  case_decide; [done|]. by apply pretty_N_go_digits.
Qed.

(** The dump that allows NaN encodes every value. *)
Lemma encode_item_total kv : Json.encode_item true kv = Some (item_text kv).
Proof.
  unfold item_text, Json.encode_item.
  destruct kv as [k [|s|z|f]]; simpl; try done.
  unfold Json.encode_float. by repeat case_match.
Qed.

Lemma mapM_encode_item l : mapM (Json.encode_item true) l = Some (map item_text l).
Proof.
  apply mapM_Some. induction l as [|kv l IH]; constructor; [apply encode_item_total | done].
Qed.

Lemma payload_eq d :
  payload d = ("{" ++ Json.join ", " (map item_text (Json.sort_items d)) ++ "}")%string.
Proof. unfold payload, Json.dumps. by rewrite mapM_encode_item. Qed.

(** [_row_index] sorts before every natural-key column. *)
Lemma natural_keys_after_row_index k :
  k ∈ NATURAL_KEY_COLUMNS → String.leb k "_row_index" = false.
Proof.
  intros Hk.
  assert (forallb (fun k => negb (String.leb k "_row_index")) NATURAL_KEY_COLUMNS = true)
    as Hall by (vm_compute; reflexivity).
  rewrite forallb_forall in Hall. apply list_elem_of_In, Hall in Hk.
  by apply negb_true_iff.
Qed.

Lemma sort_items_first x d :
  Forall (fun kv => String.leb kv.1 x.1 = false) d →
  Json.sort_items (d ++ [x]) = x :: Json.sort_items d.
Proof.
  unfold Json.sort_items. rewrite foldr_app. simpl.
  induction 1 as [|kv d Hkv _ IH]; [done|].
  simpl. rewrite IH. simpl. by rewrite Hkv.
Qed.

Lemma row_index_fresh (sanitized : record) :
  "_row_index" ∉ dict_keys (natural_basis sanitized).
Proof.
  unfold dict_keys. rewrite list_elem_of_fmap. intros (kv & Hk & Hkv).
  apply natural_basis_keys in Hkv. rewrite <- Hk in Hkv.
  apply natural_keys_after_row_index in Hkv. done.
Qed.

(** The name of a row: a prefix fixed by the account, the position in
    decimal, and a rest fixed by the natural key that starts with a comma
    or a brace. *)
Lemma id_name_shape account_id (sanitized : record) :
  ∃ rest, stops_digits rest = true ∧
    ∀ i, id_name account_id (natural_basis sanitized) i
         = ((account_id ++ "|{" ++ Json.encode_str "_row_index" ++ ": ")
              ++ pretty (Z.of_nat i) ++ rest)%string.
Proof.
  set (items := map item_text (Json.sort_items (natural_basis sanitized))).
  exists ((match items with [] => "" | _ => ", " ++ Json.join ", " items end) ++ "}")%string.
  split; [by destruct items|].
  intros i. unfold id_name.
  rewrite dict_set_fresh by apply row_index_fresh.
  rewrite payload_eq, sort_items_first.
  2:{ apply Forall_forall. intros kv Hkv. apply natural_keys_after_row_index.
      by apply natural_basis_keys in Hkv. }
  simpl map. fold items.
  change (item_text ("_row_index", VInt (Z.of_nat i)))
    with (Json.encode_str "_row_index" ++ ": " ++ pretty (Z.of_nat i))%string.
  destruct items as [|it items]; cbn [Json.join];
    repeat (rewrite ?append_assoc, ?append_cons, ?append_nil); done.
Qed.

(** Rows at different positions have different names, whatever their
    fields. *)
Lemma id_name_position account_id (s s' : record) i j :
  id_name account_id (natural_basis s) i = id_name account_id (natural_basis s') j → i = j.
Proof.
  destruct (id_name_shape account_id s) as (t & Ht & Hs).
  destruct (id_name_shape account_id s') as (t' & Ht' & Hs').
  rewrite Hs, Hs'. intros Heq. apply (inj _) in Heq.
  apply digits_then_stop in Heq; [|apply pretty_nat_digits..|done|done].
  apply (inj _) in Heq. lia.
Qed.

Lemma id_names_NoDup account_id (recs : list record) : NoDup (id_names account_id recs).
Proof.
  apply NoDup_alt. intros i j name. unfold id_names.
  rewrite !list_lookup_imap. intros Hi Hj.
  destruct (recs !! i) as [r|]; [|done]. destruct (recs !! j) as [r'|]; [|done].
  simpl in *. simplify_eq. by eapply id_name_position.
Qed.

(** ** Duplicate ids within a file *)

Lemma text_field_Some k r s :
  Store.text_field k r = Some s ↔ dict_get k r = Some (VStr s).
Proof.
  unfold Store.text_field. destruct (dict_get k r) as [[| | |]|]; naive_solver.
Qed.

Lemma union_swap (X A S : gset string) : X ∪ A ∪ S = A ∪ (X ∪ S).
Proof. by rewrite (comm_L (∪) X A), <- (assoc_L (∪)). Qed.

Lemma id_set_nil : id_set [] = ∅.
Proof. done. Qed.

Lemma id_set_cons rec recs row_id :
  Store.text_field "id" rec = Some row_id → id_set (rec :: recs) = {[ row_id ]} ∪ id_set recs.
Proof. intros Hid. unfold id_set. csimpl. by rewrite Hid. Qed.


Lemma elem_of_id_set row_id recs :
  row_id ∈ id_set recs ↔ Some row_id ∈ map (Store.text_field "id") recs.
Proof.
  unfold id_set. rewrite elem_of_list_to_set, list_elem_of_omap, list_elem_of_fmap.
  naive_solver.
Qed.

(** One turn of the second loop, on a record that carries an id. *)
Lemma dedupe_cons seen rec rest row_id :
  Store.text_field "id" rec = Some row_id → row_id ≠ "" →
  fst (dedupe seen (rec :: rest))
  = if bool_decide (row_id ∈ seen) then fst (dedupe seen rest)
    else rec :: fst (dedupe ({[ row_id ]} ∪ seen) rest).
Proof.
  intros Hid%text_field_Some Hne. simpl. rewrite Hid.
  destruct (String.eqb_spec row_id ""); [done|].
  case_bool_decide.
  - by destruct (dedupe seen rest).
  - by destruct (dedupe ({[ row_id ]} ∪ seen) rest).
Qed.


(** Without repeated ids the loop keeps every record. *)
Lemma dedupe_all_kept seen recs :
  Forall has_id recs →
  NoDup (map (Store.text_field "id") recs) →
  id_set recs ## seen →
  fst (dedupe seen recs) = recs.
Proof.
  intros Hrecs. revert seen.
  induction Hrecs as [|rec recs (row_id & Hid & Hne) _ IH]; intros seen Hnd Hdisj; [done|].
  rewrite (dedupe_cons _ _ _ row_id) by done.
  rewrite (id_set_cons _ _ row_id) in Hdisj by done.
  simpl in Hnd. apply NoDup_cons in Hnd as [Hfresh Hnd].
  rewrite bool_decide_eq_false_2 by set_solver.
  f_equal. apply IH; [done|].
  rewrite Hid in Hfresh. rewrite <- elem_of_id_set in Hfresh. set_solver.
Qed.

Lemma id_set_cons_None rec recs :
  Store.text_field "id" rec = None → id_set (rec :: recs) = id_set recs.
Proof. intros Hid. unfold id_set. csimpl. by rewrite Hid. Qed.

Lemma dedupe_cons_kept seen rec rest :
  Store.text_field "id" rec = None ∨ Store.text_field "id" rec = Some "" →
  fst (dedupe seen (rec :: rest)) = rec :: fst (dedupe seen rest).
Proof.
  unfold Store.text_field. simpl.
  destruct (dict_get "id" rec) as [[|row_id| |]|]; intros [?|?]; simplify_eq/=;
    by destruct (dedupe seen rest).
Qed.

(** The loop drops ids already seen and nothing else. *)
Lemma dedupe_id_set seen recs :
  id_set (fst (dedupe seen recs)) ∪ seen = id_set recs ∪ seen.
Proof.
  revert seen. induction recs as [|rec recs IH]; intros seen; [done|].
  destruct (Store.text_field "id" rec) as [row_id|] eqn:Hid.
  - destruct (decide (row_id = "")) as [Hempty|Hne].
    + rewrite dedupe_cons_kept by (right; by rewrite Hid, Hempty).
      rewrite !(id_set_cons _ _ row_id) by done.
      rewrite <- !(assoc_L (∪)). by rewrite IH.
    + rewrite (dedupe_cons _ _ _ row_id) by done. case_bool_decide as Hseen.
      * rewrite (id_set_cons _ _ row_id), IH by done.
        generalize (id_set recs). clear -Hseen. intros B. set_solver.
      * rewrite !(id_set_cons _ _ row_id) by done.
        specialize (IH ({[ row_id ]} ∪ seen)).
        by rewrite !union_swap, IH.
  - rewrite dedupe_cons_kept by auto.
    rewrite !id_set_cons_None by done. apply IH.
Qed.

Lemma dedupe_sublist seen recs : fst (dedupe seen recs) `sublist_of` recs.
Proof.
  revert seen. induction recs as [|rec recs IH]; intros seen; [done|].
  simpl. repeat case_match; simplify_eq;
    repeat match goal with
    | H : dedupe ?s recs = _ |- _ => specialize (IH s); rewrite H in IH; clear H
    end; simpl in *; by constructor.
Qed.

Lemma append_eq_nil (a b : string) : (a ++ b)%string = "" → b = "".
Proof. destruct a; [by rewrite append_nil | by rewrite append_cons]. Qed.

Lemma uuid5_nonempty namespace name : Digest.uuid5 namespace name ≠ "".
Proof.
  unfold Digest.uuid5. intros Heq%append_eq_nil.
  by rewrite append_cons in Heq.
Qed.

Lemma identify_has_id account_id idx rec : has_id (identify account_id idx rec).
Proof.
  eexists. split; [apply identify_id | apply uuid5_nonempty].
Qed.

Lemma records_to_insert_has_id account_id recs :
  Forall has_id (records_to_insert account_id recs).
Proof.
  unfold records_to_insert. apply Forall_forall. intros e He.
  apply list_elem_of_lookup in He as [i He].
  rewrite list_lookup_imap in He. destruct (recs !! i); simplify_eq/=.
  apply identify_has_id.
Qed.

(** ** Determinism of the ids, and duplicate rows *)

Lemma id_set_unique_records df account_id file_id :
  id_set (unique_records df account_id file_id)
  = id_set (records_to_insert account_id (tagged_records df account_id file_id)).
Proof.
  unfold unique_records.
  pose proof (dedupe_id_set ∅
    (records_to_insert account_id (tagged_records df account_id file_id))) as H.
  by rewrite !(right_id_L ∅ (∪)) in H.
Qed.

Lemma id_set_of_map (recs recs' : list record) :
  map (Store.text_field "id") recs = map (Store.text_field "id") recs' →
  id_set recs = id_set recs'.
Proof.
  revert recs'. induction recs as [|r recs IH]; intros [|r' recs'] Heq; simplify_eq/=; [done|].
  unfold id_set in *. csimpl. rewrite H. destruct (Store.text_field "id" r'); csimpl;
    by rewrite (IH recs').
Qed.

(** C3. The id of the record at position [idx] is
    [deterministic_id account_id basis idx], where [basis] is the natural
    basis of the sanitized record: a function of the account, the
    natural-key fields and the position. Hence two frames whose rows agree
    on the natural basis, processed for the same account under any file
    ids, get the same ids row by row and hand the same set of ids to the
    store. *)
Theorem ids_depend_on_account_key_and_position
  (account_id file_id file_id' : string) (df df' : DataFrame) :
  Forall2 (fun r r' => natural_basis (_sanitize_record r) = natural_basis (_sanitize_record r'))
          (to_records df) (to_records df') →
  let ids d f :=
    map (Store.text_field "id") (records_to_insert account_id (tagged_records d account_id f)) in
  ids df file_id
    = imap (fun idx r =>
              Some (deterministic_id account_id (natural_basis (_sanitize_record r)) idx))
           (to_records df)
  ∧ ids df file_id = ids df' file_id'
  ∧ id_set (unique_records df account_id file_id)
    = id_set (unique_records df' account_id file_id').
Proof.
  intros Hagree ids.
  assert (ids df file_id = ids df' file_id') as Hids.
  { unfold ids. rewrite !records_to_insert_ids.
    eapply imap_ext_Forall2; [exact Hagree|].
    intros i r r' Hr. simpl in Hr. by rewrite Hr. }
  split; [apply records_to_insert_ids|]. split; [done|].
  rewrite !id_set_unique_records. by apply id_set_of_map.
Qed.

(** C3 at work: the two ledgers differ in their other columns and in the
    file they come from, and get the same ids. *)
Lemma ids_depend_on_account_key_and_position_witness :
  id_set (unique_records ledger_a "acc-1" "file-1")
  = id_set (unique_records ledger_b "acc-1" "file-2").
Proof.
  apply (ids_depend_on_account_key_and_position "acc-1" "file-1" "file-2" ledger_a ledger_b).
  unfold to_records, ledger_a, ledger_b. cbn [nrows seq map].
  constructor; [vm_compute; reflexivity|].
  constructor; [vm_compute; reflexivity|].
  constructor.
Defined.

Example scenario_ids :
  map (fun r => (Store.text_field "id" r, Store.text_field "natural_hash" r))
      (unique_records (fst (clean_frame iso_to_datetime (scenario_frame "1234,56") None))
                      "acc-1" "file-1")
  = [ (Some "fff9460b-0903-5c8f-aaec-505d4a7baa66", Some "5f95c69a93010fd46dfe5c2877f8a6e2");
      (Some "073b0dff-e40c-579e-8593-9d75b570d52e", Some "5f95c69a93010fd46dfe5c2877f8a6e2") ].
Proof. vm_compute. reflexivity. Qed.

Lemma unique_records_all_kept df account_id file_id :
  collision_free (id_names account_id (to_records df)) →
  unique_records df account_id file_id
  = records_to_insert account_id (tagged_records df account_id file_id).
Proof.
  intros Hfree. unfold unique_records.
  apply dedupe_all_kept; [apply records_to_insert_has_id| |apply disjoint_empty_r].
  rewrite records_to_insert_ids.
  replace (imap _ (to_records df))
    with ((fun n => Some (Digest.uuid5 Digest.NAMESPACE_URL n))
            <$> id_names account_id (to_records df))
    by (unfold id_names; by rewrite fmap_imap).
  apply NoDup_fmap_2_strong; [|apply id_names_NoDup].
  intros a b Ha Hb [= Heq]. by apply Hfree.
Qed.


(** ** The persister and the orchestrator *)

Section Persister.

Context (fl : faults).

Lemma delete_competence_calls account_id w comp :
  ∃ cs, calls (delete_competence fl account_id w comp) = calls w ++ cs
        ∧ Forall (fun c => is_period_delete c = true) cs.
Proof.
  unfold delete_competence. destruct (period_bounds comp) as [[lo hi]|].
  - destruct (fail_period_delete fl comp); eexists [_]; split; try done;
      by repeat constructor.
  - exists []. by rewrite app_nil_r.
Qed.

Lemma delete_competences_calls account_id unique w :
  ∃ cs, calls (delete_competences fl account_id unique w) = calls w ++ cs
        ∧ Forall (fun c => is_period_delete c = true) cs.
Proof.
  unfold delete_competences. generalize (sorted_keys (competences_to_delete unique)).
  intros ks. revert w. induction ks as [|k ks IH]; intros w.
  - exists []. by rewrite app_nil_r.
  - simpl. destruct (IH (delete_competence fl account_id w k)) as (cs & -> & Hcs).
    destruct (delete_competence_calls account_id w k) as (cs' & -> & Hcs').
    exists (cs' ++ cs). rewrite app_assoc. split; [done|]. by apply Forall_app.
Qed.

Lemma fold_store_batch_calls bs w :
  calls (fold_left store_batch bs w) = calls w ++ map (fun b => Upsert b true) bs.
Proof.
  revert w. induction bs as [|b bs IH]; intros w; simpl; [by rewrite app_nil_r|].
  rewrite IH. simpl. by rewrite <- app_assoc.
Qed.

Lemma fold_store_batch_table bs w :
  conciliation (fold_left store_batch bs w)
  = fold_left (fun t b => Store.upsert b t) bs (conciliation w).
Proof. revert w. induction bs as [|b bs IH]; intros w; simpl; [done|]. by rewrite IH. Qed.

Lemma upsert_batches_ok_iff i bs w :
  snd (upsert_batches fl i bs w) = Ok tt
  ↔ ∀ j, j < length bs → fail_upsert fl (i + j) = false.
Proof.
  split.
  - intros Hok. destruct (upsert_batches_cases fl i bs) as [?|(j & b & Hj & Hfail & Hbefore)];
      [done|].
    by rewrite (upsert_batches_first_failure fl i bs w j b) in Hok.
  - intros Hall. by rewrite upsert_batches_all_stored.
Qed.



End Persister.

(** X2. Whichever of the deletions raise, the persister goes on to the
    upserts: its outcome is a success exactly when no batch raises. When
    none does, every batch is upserted in order. When batch [j] is the
    first to raise, the persister raises: the batches before it have been
    upserted and stay in the table, the failing call is the last one
    issued, and no later batch is attempted. The calls before the upserts
    are the file-scoped delete and then period-scoped deletes only. *)
Theorem deletions_recovered_upsert_failure_fatal
  (fl : faults) (w : world) (df : DataFrame) (account_id file_id : string) :
  let unique := unique_records df account_id file_id in
  let bs := batches unique in
  let w1 := delete_competences fl account_id unique (delete_file_records fl file_id w) in
  let out := save_data_in_batches fl w df account_id file_id in
  (snd out = Ok tt ↔ all_batches_saved fl bs)
  ∧ (all_batches_saved fl bs →
     calls (fst out) = calls w1 ++ map (fun b => Upsert b true) bs
     ∧ conciliation (fst out) = fold_left (fun t b => Store.upsert b t) bs (conciliation w1))
  ∧ (∀ j batch,
       bs !! j = Some batch → fail_upsert fl (1 + j) = true →
       (∀ j', j' < j → fail_upsert fl (1 + j') = false) →
       snd out = Raise (StoreError "upsert")
       ∧ calls (fst out)
         = calls w1 ++ map (fun b => Upsert b true) (take j bs) ++ [Upsert batch false]
       ∧ conciliation (fst out)
         = fold_left (fun t b => Store.upsert b t) (take j bs) (conciliation w1))
  ∧ ∃ deletes,
      calls w1 = calls w ++ DeleteByFile file_id (negb (fail_file_delete fl)) :: deletes
      ∧ Forall (fun c => is_period_delete c = true) deletes.
Proof.
  cbv zeta. unfold save_data_in_batches, all_batches_saved.
  split; [apply upsert_batches_ok_iff|]. split; [|split].
  - intros Hall. rewrite upsert_batches_all_stored by done. simpl.
    by rewrite fold_store_batch_calls, fold_store_batch_table.
  - intros j batch Hj Hfail Hbefore.
    rewrite (upsert_batches_first_failure fl 1 _ _ j batch) by done. simpl.
    by rewrite fold_store_batch_calls, fold_store_batch_table, <- app_assoc.
  - destruct (delete_competences_calls fl account_id (unique_records df account_id file_id)
                (delete_file_records fl file_id w)) as (cs & Hcalls & Hcs).
    exists cs. by rewrite Hcalls, delete_file_records_calls, <- app_assoc.
Qed.

(** The upserts of a run in which the file-scoped delete and every
    period-scoped delete raise, and so does the second batch. *)
Example deletes_fail_second_batch_fails :
  let fl := {| fail_status := fun _ => false; fail_file_delete := true;
               fail_period_delete := fun _ => true;
               fail_upsert := fun i => bool_decide (i = 2) |} in
  let df := {| nrows := 101;
               series := [("competence_date", replicate 101 (VStr "2024-06-01T00:00:00"))] |} in
  let out := save_data_in_batches fl {| conciliation := []; received_files := ∅; calls := [] |}
               df "acc-1" "file-1" in
  snd out = Raise (StoreError "upsert")
  ∧ map (fun c => match c with
                  | StatusUpdate _ _ ok => ("status", 0, ok)
                  | DeleteByFile _ ok => ("delete by file", 0, ok)
                  | DeleteByPeriod _ _ _ ok => ("delete by period", 0, ok)
                  | Upsert b ok => ("upsert", length b, ok)
                  end) (calls (fst out))
    = [("delete by file", 0, false); ("delete by period", 0, false);
       ("upsert", 100, true); ("upsert", 1, false)]
  ∧ length (conciliation (fst out)) = 100.
Proof. vm_compute. done. Qed.


(** ** Period keys *)

Lemma competence_key_None rec : competence_key rec = None ↔ no_period_key rec.
Proof.
  unfold competence_key, no_period_key.
  destruct (dict_get "competence_date" rec) as [[|s| |]|]; simpl; try tauto.
  - destruct (String.eqb_spec s ""); simpl.
    + subst s. simpl. split; [lia|done].
    + case_bool_decide; split; (done || lia).
  - by destruct (negb _).
  - by destruct (negb _).
Qed.

Lemma competence_key_identify account_id idx rec :
  competence_key (identify account_id idx rec) = competence_key rec.
Proof.
  unfold competence_key. rewrite identify_get by done.
  destruct (dict_get "competence_date" rec) as [[| | |f]|]; simpl; try done.
  destruct (is_nan f), (is_inf f); simpl; by destruct (negb _).
Qed.

Lemma competence_key_tagged account_id file_id r :
  competence_key (dict_set "received_file_id" (VStr file_id)
                    (dict_set "account_id" (VStr account_id) r))
  = competence_key r.
Proof. unfold competence_key. by rewrite !dict_get_set_ne. Qed.

Lemma records_to_insert_keys account_id file_id df :
  map competence_key (records_to_insert account_id (tagged_records df account_id file_id))
  = map competence_key (to_records df).
Proof.
  rewrite tagged_records_eq. unfold records_to_insert.
  rewrite imap_fmap, fmap_imap, <- imap_const. apply imap_ext.
  intros i r _. simpl. by rewrite competence_key_identify, competence_key_tagged.
Qed.

Lemma omap_all_None {A B} (f : A → option B) (l : list A) :
  Forall (fun x => f x = None) l → omap f l = [].
Proof. induction 1 as [|x l Hx _ IH]; csimpl; [done|]. by rewrite Hx. Qed.

Lemma sorted_keys_empty : sorted_keys ∅ = [].
Proof. unfold sorted_keys. by rewrite elements_empty. Qed.

Lemma no_period_key_not_in_period account_id lo hi rec :
  no_period_key rec → Store.in_period account_id lo hi rec = false.
Proof.
  unfold no_period_key, Store.in_period, Store.competence_of, Store.text_field.
  destruct (dict_get "competence_date" rec) as [[|s| |]|]; intros Hs;
    rewrite ?andb_false_r; try done.
  unfold Store.date_of_text.
  rewrite (bool_decide_eq_false_2 (10 <= String.length s)) by lia.
  simpl. by rewrite andb_false_r.
Qed.

(** ** Batches *)

Lemma concat_chunks {A} (fuel size : nat) (l : list A) :
  (length l <= fuel)%nat → 0 < size → concat (Digest.chunks fuel size l) = l.
Proof.
  revert l. induction fuel as [|fuel IH]; intros l Hlen Hsize.
  - by destruct l; simpl in *; [|lia].
  - destruct l as [|x l]; [done|].
    change (Digest.chunks (S fuel) size (x :: l))
      with (take size (x :: l) :: Digest.chunks fuel size (drop size (x :: l))).
    simpl concat. rewrite IH; [apply take_drop| |done].
    rewrite length_drop. simpl in *. lia.
Qed.

Lemma concat_batches (l : list record) : concat (batches l) = l.
Proof. apply concat_chunks; [done|unfold batch_size; lia]. Qed.

Lemma upsert_batches_calls fl i bs w :
  ∃ cs, calls (fst (upsert_batches fl i bs w)) = calls w ++ cs
        ∧ Forall (fun c => is_period_delete c = false) cs.
Proof.
  revert i w. induction bs as [|b bs IH]; intros i w; simpl.
  - exists []. by rewrite app_nil_r.
  - destruct (fail_upsert fl i).
    + exists [Upsert b false]. split; [done|]. by repeat constructor.
    + destruct (IH (S i) (store_batch w b)) as (cs & -> & Hcs).
      exists (Upsert b true :: cs). simpl. rewrite <- app_assoc. split; [done|].
      by constructor.
Qed.

Lemma unique_records_elem_of df account_id file_id rec :
  rec ∈ unique_records df account_id file_id →
  rec ∈ records_to_insert account_id (tagged_records df account_id file_id).
Proof. intros Hrec. eapply elem_of_sublist; [exact Hrec|apply dedupe_sublist]. Qed.

(** X3. When no record of the file has a [competence_date] that is a
    text of seven characters or more, no record gives a period key, the
    set of periods to delete is empty and the persister issues no
    period-scoped delete: after the file-scoped delete it goes straight to
    the upserts. Every record still carries its [id], every [id] computed
    is handed over, the batches are the records in order, and when no
    batch raises they are all upserted. No period-scoped delete of a later
    run matches such a record. *)
Theorem no_period_key_no_period_delete
  (fl : faults) (w : world) (df : DataFrame) (account_id file_id : string) :
  Forall no_period_key (to_records df) →
  let unique := unique_records df account_id file_id in
  let out := save_data_in_batches fl w df account_id file_id in
  Forall (fun rec => competence_key rec = None) unique
  ∧ competences_to_delete unique = ∅
  ∧ out = upsert_batches fl 1 (batches unique) (delete_file_records fl file_id w)
  ∧ (∃ cs, calls (fst out)
           = calls w ++ DeleteByFile file_id (negb (fail_file_delete fl)) :: cs
           ∧ Forall (fun c => is_period_delete c = false) cs)
  ∧ Forall has_id unique
  ∧ id_set unique
    = id_set (records_to_insert account_id (tagged_records df account_id file_id))
  ∧ concat (batches unique) = unique
  ∧ (all_batches_saved fl (batches unique) →
     calls (fst out)
     = calls w ++ DeleteByFile file_id (negb (fail_file_delete fl))
               :: map (fun b => Upsert b true) (batches unique))
  ∧ Forall (fun rec => ∀ a lo hi, Store.in_period a lo hi rec = false) unique.
Proof.
  intros Hnone unique out.
  assert (Forall (fun rec => competence_key rec = None) unique) as Hkeys.
  { apply Forall_forall. intros rec Hrec.
    pose proof (unique_records_elem_of df account_id file_id rec Hrec) as Hin.
    apply (list_elem_of_fmap_2 competence_key) in Hin.
    change (competence_key rec ∈ map competence_key
              (records_to_insert account_id (tagged_records df account_id file_id))) in Hin.
    rewrite records_to_insert_keys in Hin.
    apply list_elem_of_fmap in Hin as (r & -> & Hr).
    apply competence_key_None. by eapply Forall_forall in Hnone. }
  assert (competences_to_delete unique = ∅) as Hempty.
  { unfold competences_to_delete. by rewrite omap_all_None. }
  assert (out = upsert_batches fl 1 (batches unique) (delete_file_records fl file_id w)) as Hout.
  { unfold out, save_data_in_batches, delete_competences. fold unique.
    by rewrite Hempty, sorted_keys_empty. }
  split; [done|]. split; [done|]. split; [done|]. split.
  { rewrite Hout.
    destruct (upsert_batches_calls fl 1 (batches unique) (delete_file_records fl file_id w))
      as (cs & -> & Hcs).
    exists cs. by rewrite delete_file_records_calls, <- app_assoc. }
  split.
  { apply Forall_forall. intros rec Hrec.
    pose proof (unique_records_elem_of df account_id file_id rec Hrec) as Hin.
    by eapply Forall_forall in Hin; [|apply records_to_insert_has_id]. }
  split; [apply id_set_unique_records|]. split; [apply concat_batches|]. split.
  - intros Hall. rewrite Hout, upsert_batches_all_stored by done. simpl.
    by rewrite fold_store_batch_calls, delete_file_records_calls, <- app_assoc.
  - eapply Forall_impl; [exact Hkeys|]. intros rec Hrec a lo hi.
    by apply no_period_key_not_in_period, competence_key_None.
Qed.

(** X3 at work, on a file with a null, a short text and a number for
    [competence_date], when every delete would raise. *)
Lemma no_period_key_no_period_delete_witness :
  Forall no_period_key (to_records undated_frame)
  ∧ competences_to_delete (unique_records undated_frame "acc-1" "file-1") = ∅
  ∧ Forall has_id (unique_records undated_frame "acc-1" "file-1").
Proof.
  assert (Forall no_period_key (to_records undated_frame)) as Hnone.
  { unfold to_records, undated_frame. cbn [nrows seq map].
    constructor; [exact I|]. constructor; [vm_compute; lia|].
    constructor; [exact I|]. constructor. }
  split; [exact Hnone|].
  pose proof (no_period_key_no_period_delete no_faults empty_world undated_frame
                "acc-1" "file-1" Hnone) as H.
  split; [apply H|apply H].
Defined.

Example undated_frame_run :
  let out := save_data_in_batches no_faults empty_world undated_frame "acc-1" "file-1" in
  snd out = Ok tt
  ∧ map is_period_delete (calls (fst out)) = [false; false]
  ∧ map (Store.text_field "id") (conciliation (fst out))
    = map (Store.text_field "id") (unique_records undated_frame "acc-1" "file-1")
  ∧ length (conciliation (fst out)) = 3.
Proof. vm_compute. done. Qed.

(** ** Reading a period key *)

Lemma digit_char c :
  is_digit c = true →
  Py.is_space c = false ∧ Ascii.eqb c "-" = false ∧ c ≠ "+"%char ∧ c ≠ "-"%char.
Proof. destruct c as [[] [] [] [] [] [] [] []]; vm_compute; intros; done. Qed.

Lemma all_digits_forallb s : all_digits s = forallb is_digit (list_ascii_of_string s).
Proof. induction s as [|c s IH]; simpl; [done|]. by rewrite IH. Qed.

Lemma rstrip_digits s : all_digits s = true → Py.rstrip s = s.
Proof.
  induction s as [|c s IH]; simpl; [done|]. intros [Hc Hs]%andb_prop.
  rewrite (IH Hs). destruct s; [|done].
  by destruct (digit_char c Hc) as (-> & _).
Qed.

Lemma strip_digits s : all_digits s = true → Py.strip s = s.
Proof.
  intros Hs. unfold Py.strip. destruct s as [|c s]; [done|].
  simpl in Hs. apply andb_prop in Hs as [Hc Hs]. simpl Py.lstrip.
  destruct (digit_char c Hc) as (-> & _). apply rstrip_digits. simpl. by rewrite Hc.
Qed.

Lemma py_int_digits s :
  all_digits s = true → py_int s = int_digits s 0%Z false.
Proof.
  intros Hs. unfold py_int. rewrite strip_digits by done.
  destruct s as [|c s]; [done|]. simpl in Hs. apply andb_prop in Hs as [Hc _].
  destruct (digit_char c Hc) as (_ & _ & Hplus & Hminus).
  destruct c as [[] [] [] [] [] [] [] []]; done.
Qed.

Lemma split_on_digits_one b : all_digits b = true → split_on "-" b = [b].
Proof.
  induction b as [|c b IH]; simpl; [done|]. intros [Hc Hb]%andb_prop.
  destruct (digit_char c Hc) as (_ & -> & _). by rewrite IH.
Qed.

Lemma split_on_digits a b :
  all_digits a = true → all_digits b = true →
  split_on "-" (a ++ String "-" b) = [a; b].
Proof.
  intros Ha Hb. induction a as [|c a IH].
  - rewrite append_nil. simpl. by rewrite split_on_digits_one.
  - simpl in Ha. apply andb_prop in Ha as [Hc Ha]. rewrite append_cons. simpl.
    destruct (digit_char c Hc) as (_ & -> & _). by rewrite IH.
Qed.

Lemma digits_Z_Some s z :
  Store.digits_Z s = Some z → all_digits s = true ∧ int_digits s 0%Z false = Some z.
Proof.
  unfold Store.digits_Z. rewrite <- all_digits_forallb.
  destruct (all_digits s); simpl; [|done]. by destruct (negb _).
Qed.

Lemma first_of_month_Some y m :
  (1 <= y <= 9999)%Z → (1 <= m <= 12)%Z →
  first_of_month y m = Some {| d_year := y; d_month := m; d_day := 1 |}.
Proof.
  intros Hy Hm. unfold first_of_month.
  by rewrite !(proj2 (Z.leb_le _ _)) by lia.
Qed.

Lemma period_bounds_digits a b y m :
  all_digits a = true → all_digits b = true →
  int_digits a 0%Z false = Some y → int_digits b 0%Z false = Some m →
  (1 <= y <= 9998)%Z → (1 <= m <= 12)%Z →
  period_bounds (a ++ String "-" b) = Some (month_start (y, m), next_month_start (y, m)).
Proof.
  intros Ha Hb Hy Hm Hyr Hmr. unfold period_bounds.
  rewrite split_on_digits, !py_int_digits, Hy, Hm by done.
  rewrite first_of_month_Some by lia. unfold month_start, next_month_start. simpl.
  destruct (Z.eqb_spec m 12); by rewrite first_of_month_Some by lia.
Qed.

(** The key of a dated text, and what the loop reads from it. *)
Lemma period_bounds_dated s d :
  Store.date_of_text s = Some d →
  (1 <= d_year d <= 9998)%Z → (1 <= d_month d <= 12)%Z →
  7 <= String.length s
  ∧ period_bounds (substring 0 7 s)
    = Some (month_start (d_year d, d_month d), next_month_start (d_year d, d_month d)).
Proof.
  unfold Store.date_of_text. case_bool_decide as Hlen; simpl; [|done].
  destruct (String.eqb_spec (substring 4 1 s) "-") as [H4|]; simpl; [|done].
  destruct (String.eqb (substring 7 1 s) "-"); [|done].
  destruct (Store.digits_Z (substring 0 4 s)) as [y|] eqn:Hy; [|done].
  destruct (Store.digits_Z (substring 5 2 s)) as [m|] eqn:Hm; [|done].
  destruct (Store.digits_Z (substring 8 2 s)) as [day|]; [|done].
  intros [= <-] Hyr Hmr. simpl in Hyr, Hmr. split; [lia|].
  apply digits_Z_Some in Hy as [Ha Hy]. apply digits_Z_Some in Hm as [Hb Hm].
  replace (substring 0 7 s)
    with (substring 0 4 s ++ String "-" (substring 5 2 s))%string.
  { by apply period_bounds_digits. }
  destruct s as [|c0 [|c1 [|c2 [|c3 [|c4 [|c5 [|c6 s]]]]]]]; simpl in Hlen; try lia.
  simpl in H4. injection H4 as ->. done.
Qed.

(** ** The effect of the period-scoped deletes *)

Lemma filter_negb_false {A} (l : list A) : filter (fun _ => negb false) l = l.
Proof. induction l as [|x l IH]; [done|]. rewrite filter_cons_True by done. by f_equal. Qed.

Lemma omap_imap {A B C} (g : B → option C) (h : A → option C) (f : nat → A → B) (l : list A) :
  (∀ i x, g (f i x) = h x) → omap g (imap f l) = omap h l.
Proof.
  revert f. induction l as [|x l IH]; intros f Hf; csimpl; [done|].
  rewrite Hf. by rewrite (IH (f ∘ S)) by (intros; apply Hf).
Qed.

Lemma competence_date_identify account_id file_id idx r :
  dict_get "competence_date"
    (identify account_id idx
       (dict_set "received_file_id" (VStr file_id) (dict_set "account_id" (VStr account_id) r)))
  = _sanitize_value <$> dict_get "competence_date" r.
Proof. by rewrite identify_get, !dict_get_set_ne. Qed.

Lemma competence_of_identify account_id file_id idx r :
  Store.competence_of
    (identify account_id idx
       (dict_set "received_file_id" (VStr file_id) (dict_set "account_id" (VStr account_id) r)))
  = Store.competence_of r.
Proof.
  unfold Store.competence_of, Store.text_field. rewrite competence_date_identify.
  destruct (dict_get "competence_date" r) as [[| | |f]|]; simpl; try done.
  by destruct (is_nan f), (is_inf f).
Qed.

Lemma dated_identify account_id file_id idx r :
  dated r →
  dated (identify account_id idx
           (dict_set "received_file_id" (VStr file_id)
              (dict_set "account_id" (VStr account_id) r))).
Proof.
  unfold dated. rewrite competence_date_identify.
  by destruct (dict_get "competence_date" r) as [[| | |]|].
Qed.

Lemma unique_records_dated df account_id file_id :
  Forall dated (to_records df) → Forall dated (unique_records df account_id file_id).
Proof.
  intros Hall. apply Forall_forall. intros rec Hrec.
  apply unique_records_elem_of, list_elem_of_lookup in Hrec as [i Hi].
  unfold records_to_insert in Hi.
  rewrite list_lookup_imap, tagged_records_eq, list_lookup_fmap in Hi.
  apply fmap_Some in Hi as (tagged & Hi & ->). apply fmap_Some in Hi as (r & Hr & ->).
  apply dated_identify. eapply Forall_forall; [exact Hall|].
  by eapply list_elem_of_lookup_2.
Qed.

Lemma months_of_records_to_insert df account_id file_id :
  months_of (records_to_insert account_id (tagged_records df account_id file_id))
  = months_of (to_records df).
Proof.
  unfold months_of, records_to_insert. rewrite tagged_records_eq, imap_fmap.
  apply omap_imap. intros i r. simpl. by rewrite competence_of_identify.
Qed.

(** A dated record gives a period key exactly when the store reads a date
    from it, and the loop then reads the month of that date. *)
Lemma competence_key_dated rec :
  dated rec →
  match Store.competence_of rec with
  | Some d =>
      ∃ k, competence_key rec = Some k
           ∧ period_bounds k = Some (month_start (d_year d, d_month d),
                                     next_month_start (d_year d, d_month d))
  | None => competence_key rec = None
  end.
Proof.
  unfold dated, Store.competence_of, Store.text_field, competence_key.
  destruct (dict_get "competence_date" rec) as [[|s| |]|]; try done.
  destruct (Store.date_of_text s) as [d|] eqn:Hd; [|done]. intros [Hy Hm].
  destruct (period_bounds_dated s d) as [Hlen Hbounds]; [done..|].
  exists (substring 0 7 s). split; [|done].
  rewrite bool_decide_eq_true_2 by done.
  destruct s; [simpl in Hlen; lia|done].
Qed.

Section PeriodDelete.

Context (fl : faults) (account_id : string).
Hypothesis no_failure : ∀ comp, fail_period_delete fl comp = false.

Lemma delete_competence_table w comp :
  conciliation (delete_competence fl account_id w comp)
  = filter (fun r => negb (key_matches account_id comp r)) (conciliation w).
Proof.
  unfold delete_competence, key_matches.
  destruct (period_bounds comp) as [[lo hi]|]; [by rewrite no_failure|].
  exact (eq_sym (filter_negb_false (conciliation w))).
Qed.

Lemma fold_delete_competence_table ks w :
  conciliation (fold_left (delete_competence fl account_id) ks w)
  = filter (fun r => negb (existsb (fun k => key_matches account_id k r) ks))
           (conciliation w).
Proof.
  revert w. induction ks as [|k ks IH]; intros w; simpl.
  - exact (eq_sym (filter_negb_false (conciliation w))).
  - rewrite IH, delete_competence_table. etrans; [apply list_filter_filter|].
    apply list_filter_iff. intros r. rewrite negb_orb, andb_True. tauto.
Qed.

Lemma key_matches_month k ym r :
  period_bounds k = Some (month_start ym, next_month_start ym) →
  key_matches account_id k r
  = bool_decide (Store.text_field "account_id" r = Some account_id) && in_month ym r.
Proof. intros Hk. unfold key_matches, Store.in_period, in_month. by rewrite Hk. Qed.

Lemma elem_of_sorted_keys k unique :
  k ∈ sorted_keys (competences_to_delete unique)
  ↔ ∃ rec, rec ∈ unique ∧ competence_key rec = Some k.
Proof.
  unfold sorted_keys, competences_to_delete.
  rewrite merge_sort_Permutation, elem_of_elements, elem_of_list_to_set.
  apply list_elem_of_omap.
Qed.

Lemma keys_match_months unique r :
  Forall dated unique →
  existsb (fun k => key_matches account_id k r) (sorted_keys (competences_to_delete unique))
  = replaced account_id (months_of unique) r.
Proof.
  intros Hdated. apply Bool.eq_iff_eq_true. unfold replaced.
  rewrite andb_true_iff, !existsb_exists. split.
  - intros (k & Hk%list_elem_of_In & Hmatch).
    apply elem_of_sorted_keys in Hk as (rec & Hrec & Hkey).
    pose proof (competence_key_dated rec) as Hrd.
    destruct (Store.competence_of rec) as [d|] eqn:Hd.
    + destruct Hrd as (k' & Hk' & Hbounds);
        [by eapply Forall_forall in Hdated|].
      rewrite Hkey in Hk'. injection Hk' as <-.
      rewrite (key_matches_month _ _ _ Hbounds) in Hmatch.
      apply andb_prop in Hmatch as [Hacc Hin]. split; [done|].
      exists (d_year d, d_month d). split; [|done].
      apply list_elem_of_In, list_elem_of_omap. exists rec. by rewrite Hd.
    + rewrite Hrd in Hkey; [done|]. by eapply Forall_forall in Hdated.
  - intros [Hacc (ym & Hym%list_elem_of_In & Hin)].
    apply list_elem_of_omap in Hym as (rec & Hrec & Hread).
    pose proof (competence_key_dated rec) as Hrd.
    destruct (Store.competence_of rec) as [d|]; [|done]. injection Hread as <-.
    destruct Hrd as (k & Hk & Hbounds); [by eapply Forall_forall in Hdated|].
    exists k. split.
    + apply list_elem_of_In, elem_of_sorted_keys. by exists rec.
    + rewrite (key_matches_month _ _ _ Hbounds). by rewrite Hacc, Hin.
Qed.

Lemma delete_competences_table unique w :
  Forall dated unique →
  conciliation (delete_competences fl account_id unique w)
  = filter (fun r => negb (replaced account_id (months_of unique) r)) (conciliation w).
Proof.
  intros Hdated. unfold delete_competences. rewrite fold_delete_competence_table.
  apply list_filter_iff. intros r. by rewrite keys_match_months.
Qed.

End PeriodDelete.

Lemma months_of_unique_records df account_id file_id ym :
  ym ∈ months_of (unique_records df account_id file_id) → ym ∈ months_of (to_records df).
Proof.
  intros (rec & Hrec & Hym)%list_elem_of_omap.
  rewrite <- (months_of_records_to_insert df account_id file_id).
  apply list_elem_of_omap. exists rec. split; [|done]. by apply unique_records_elem_of.
Qed.

(** X4. When no period-scoped delete raises and the [competence_date]s of
    the file are null or dated texts, the deletes remove from the table
    exactly the rows of the account whose date lies in the month, from its
    first day up to the first day of the next month, of a record kept for
    the upsert; every other row stays, in its place, and the status sink
    is untouched. The months are read from the seven-character keys of
    the loop, they are months of the file's rows, and they are all of them
    unless two ids of the file collide. *)
Theorem period_delete_exact
  (fl : faults) (w : world) (df : DataFrame) (account_id file_id : string) :
  (∀ comp, fail_period_delete fl comp = false) →
  Forall dated (to_records df) →
  let unique := unique_records df account_id file_id in
  let w' := delete_competences fl account_id unique w in
  conciliation w'
  = filter (fun r => negb (replaced account_id (months_of unique) r)) (conciliation w)
  ∧ received_files w' = received_files w
  ∧ Forall (fun rec =>
              match Store.competence_of rec with
              | Some d =>
                  ∃ k, competence_key rec = Some k
                       ∧ period_bounds k = Some (month_start (d_year d, d_month d),
                                                 next_month_start (d_year d, d_month d))
              | None => competence_key rec = None
              end) unique
  ∧ (∀ ym, ym ∈ months_of unique → ym ∈ months_of (to_records df))
  ∧ (collision_free (id_names account_id (to_records df)) →
     months_of unique = months_of (to_records df)).
Proof.
  intros Hok Hdated unique w'.
  pose proof (unique_records_dated df account_id file_id Hdated) as Hunique.
  split; [by apply delete_competences_table|].
  split; [apply delete_competences_files|].
  split; [eapply Forall_impl; [exact Hunique|apply competence_key_dated]|].
  split; [apply months_of_unique_records|].
  intros Hfree. unfold unique. rewrite unique_records_all_kept by done.
  apply months_of_records_to_insert.
Qed.

(** X4 at work: a file of June and December 2024 against a table with
    rows around those months. *)
Lemma period_delete_exact_witness :
  Forall dated (to_records two_month_frame)
  ∧ conciliation (delete_competences no_faults "acc-1"
                    (unique_records two_month_frame "acc-1" "file-1") stored_world)
    = filter (fun r => negb (replaced "acc-1"
                               (months_of (unique_records two_month_frame "acc-1" "file-1")) r))
             (conciliation stored_world).
Proof.
  assert (Forall dated (to_records two_month_frame)) as Hdated.
  { unfold to_records, two_month_frame. cbn [nrows seq map].
    repeat (constructor; [vm_compute; intuition discriminate|]). constructor. }
  split; [exact Hdated|].
  apply (period_delete_exact no_faults stored_world two_month_frame "acc-1" "file-1");
    [reflexivity|exact Hdated].
Defined.

(** The rows left by that run: May and July, the other account, January
    2025 and the row without date. *)
Example period_delete_scenario :
  map (Store.text_field "id")
      (conciliation (delete_competences no_faults "acc-1"
                       (unique_records two_month_frame "acc-1" "file-1") stored_world))
  = [Some "a"; Some "d"; Some "e"; Some "g"; Some "h"].
Proof. vm_compute. reflexivity. Qed.

(** ** Invariants of the dedupe pass *)

Lemma dedupe_length seen recs :
  length (fst (dedupe seen recs)) + snd (dedupe seen recs) = length recs.
Proof.
  revert seen. induction recs as [|rec rest IH]; intros seen; [done|].
  simpl. destruct (dict_get "id" rec) as [[|row_id| |]|];
    try (specialize (IH seen); destruct (dedupe seen rest); simpl in *; lia).
  destruct (String.eqb row_id "");
    [specialize (IH seen); destruct (dedupe seen rest); simpl in *; lia|].
  case_bool_decide.
  - specialize (IH seen). destruct (dedupe seen rest). simpl in *. lia.
  - specialize (IH ({[ row_id ]} ∪ seen)). destruct (dedupe _ rest). simpl in *. lia.
Qed.

Lemma dedupe_has_id seen recs : Forall has_id recs → Forall has_id (fst (dedupe seen recs)).
Proof.
  intros Hall. apply Forall_forall. intros rec Hrec.
  eapply Forall_forall; [exact Hall|].
  eapply elem_of_sublist; [exact Hrec|apply dedupe_sublist].
Qed.

(** The kept records have pairwise different ids, none of them seen
    before. *)
Lemma dedupe_NoDup seen recs :
  Forall has_id recs →
  NoDup (map (Store.text_field "id") (fst (dedupe seen recs)))
  ∧ ∀ x, x ∈ id_set (fst (dedupe seen recs)) → x ∉ seen.
Proof.
  intros Hall. revert seen.
  induction Hall as [|rec rest (row_id & Hid & Hne) _ IH]; intros seen.
  - split; [constructor|]. intros x. simpl. rewrite id_set_nil.
    intros Hx. by apply not_elem_of_empty in Hx.
  - rewrite (dedupe_cons _ _ _ row_id) by done. case_bool_decide as Hseen; [apply IH|].
    destruct (IH ({[ row_id ]} ∪ seen)) as [Hnd Hfresh]. split.
    + simpl. rewrite Hid. constructor; [|done].
      intros Hin%elem_of_id_set. apply Hfresh in Hin.
      apply Hin, elem_of_union_l, elem_of_singleton. done.
    + intros x. rewrite (id_set_cons _ _ row_id) by done.
      intros [->%elem_of_singleton|Hin]%elem_of_union; [done|].
      apply Hfresh in Hin. intros Hx. apply Hin, elem_of_union_r, Hx.
Qed.

Lemma length_records_to_insert df account_id file_id :
  length (records_to_insert account_id (tagged_records df account_id file_id)) = nrows df.
Proof.
  unfold records_to_insert. rewrite length_imap, tagged_records_eq.
  change (length (map ?f ?l)) with (length (f <$> l)).
  by rewrite length_fmap, length_to_records.
Qed.

(** X5. The records handed to the upserts are records of the file in the
    file's order, the first one always among them; no two of them have
    the same id, every id computed for the file is the id of one of them,
    and the kept and the skipped rows add up to the rows of the file. *)
Theorem unique_records_invariants (df : DataFrame) (account_id file_id : string) :
  let recs := records_to_insert account_id (tagged_records df account_id file_id) in
  let unique := unique_records df account_id file_id in
  length recs = nrows df
  ∧ unique `sublist_of` recs
  ∧ length unique + snd (dedupe ∅ recs) = nrows df
  ∧ NoDup (map (Store.text_field "id") unique)
  ∧ Forall has_id unique
  ∧ id_set unique = id_set recs
  ∧ head unique = head recs.
Proof.
  cbv zeta. unfold unique_records.
  pose proof (records_to_insert_has_id account_id (tagged_records df account_id file_id))
    as Hall.
  split; [apply length_records_to_insert|].
  split; [apply dedupe_sublist|].
  split; [rewrite dedupe_length; apply length_records_to_insert|].
  split; [by apply dedupe_NoDup|].
  split; [by apply dedupe_has_id|].
  split; [apply (id_set_unique_records df account_id file_id)|].
  destruct (records_to_insert account_id (tagged_records df account_id file_id))
    as [|rec rest]; [done|].
  apply Forall_cons in Hall as [(row_id & Hid & Hne) _].
  rewrite (dedupe_cons _ _ _ row_id) by done.
  by rewrite bool_decide_eq_false_2 by set_solver.
Qed.

(** ** The batches *)

Lemma length_chunks {A} (fuel size : nat) (l : list A) :
  (length l <= fuel)%nat → 0 < size →
  length (Digest.chunks fuel size l) = (length l + size - 1) / size.
Proof.
  revert l. induction fuel as [|fuel IH]; intros l Hlen Hsize.
  - destruct l; simpl in *; [|lia]. symmetry. apply Nat.div_small. lia.
  - destruct l as [|x l]; [simpl; symmetry; apply Nat.div_small; lia|].
    change (Digest.chunks (S fuel) size (x :: l))
      with (take size (x :: l) :: Digest.chunks fuel size (drop size (x :: l))).
    simpl length at 1. rewrite IH; [|rewrite length_drop; simpl in *; lia|done].
    rewrite length_drop. remember (length (x :: l)) as n eqn:En.
    assert (1 <= n) as Hn by (subst n; simpl; lia). clear En Hlen IH.
    destruct (decide (n <= size)) as [Hle|Hgt].
    + replace (n - size + size - 1) with (size - 1) by lia.
      rewrite (Nat.div_small (size - 1)) by lia.
      apply (Nat.div_unique _ _ _ (n - 1)); lia.
    + replace (n + size - 1) with (1 * size + (n - size + size - 1)) by lia.
      rewrite Nat.div_add_l by lia. done.
Qed.

Lemma chunks_lookup {A} (fuel size : nat) (l : list A) i :
  (length l <= fuel)%nat → 0 < size → i * size < length l →
  Digest.chunks fuel size l !! i = Some (take size (drop (i * size) l)).
Proof.
  revert l i. induction fuel as [|fuel IH]; intros l i Hlen Hsize Hi; [lia|].
  destruct l as [|x l]; [simpl in Hi; lia|].
  change (Digest.chunks (S fuel) size (x :: l))
    with (take size (x :: l) :: Digest.chunks fuel size (drop size (x :: l))).
  destruct i as [|i]; [done|].
  simpl lookup. rewrite IH; [|rewrite length_drop; simpl in *; lia|done|].
  - rewrite drop_drop. do 2 f_equal; lia.
  - rewrite length_drop. lia.
Qed.

Lemma chunks_lookup_None {A} (fuel size : nat) (l : list A) i :
  (length l <= fuel)%nat → 0 < size → length l <= i * size →
  Digest.chunks fuel size l !! i = None.
Proof.
  intros Hlen Hsize Hi. apply lookup_ge_None. rewrite length_chunks by done.
  assert ((length l + size - 1) / size < S i); [|lia].
  apply Nat.Div0.div_lt_upper_bound. nia.
Qed.

Lemma chunks_sizes {A} (fuel size : nat) (l : list A) :
  (length l <= fuel)%nat → 0 < size →
  Forall (fun b => 0 < length b <= size) (Digest.chunks fuel size l).
Proof.
  intros Hlen Hsize. apply Forall_lookup. intros i b Hb.
  destruct (decide (i * size < length l)) as [Hi|Hi].
  - rewrite chunks_lookup in Hb by done. injection Hb as <-.
    rewrite length_take, length_drop. lia.
  - rewrite chunks_lookup_None in Hb by (done || lia). done.
Qed.

(** X6. The upsert loop cuts the records into the slices
    [unique_records[100 * i : 100 * i + 100]]: their number is the
    [total_batches] announced, none is empty or longer than 100, and
    joined in order they are the records. *)
Theorem batches_are_slices (unique : list record) :
  length (batches unique) = total_batches unique
  ∧ (∀ i, i * batch_size < length unique →
          batches unique !! i = Some (take batch_size (drop (i * batch_size) unique)))
  ∧ (∀ i, length unique <= i * batch_size → batches unique !! i = None)
  ∧ Forall (fun b => 0 < length b <= batch_size) (batches unique)
  ∧ concat (batches unique) = unique.
Proof.
  assert (0 < batch_size) as Hsize by (unfold batch_size; lia).
  unfold batches. split; [|split; [|split; [|split]]].
  - rewrite length_chunks by done. unfold total_batches. destruct unique; [|done].
    apply Nat.div_small. simpl. unfold batch_size. lia.
  - intros i Hi. by apply chunks_lookup.
  - intros i Hi. by apply chunks_lookup_None.
  - by apply chunks_sizes.
  - by apply concat_chunks.
Qed.

(** X7. [chunked] raises for a zero size; for any other size it yields the
    slices [seq[size * i : size * i + size]], which joined in order are
    the sequence: [ceil(len / size)] of them, none empty or longer than
    the size. *)
Theorem chunked_slices {A} (seq : list A) (size : nat) :
  (size = 0 → chunked seq size = Raise (ValueError "range() arg 3 must not be zero"))
  ∧ (0 < size →
     ∃ chunks, chunked seq size = Ok chunks
       ∧ concat chunks = seq
       ∧ length chunks = (length seq + size - 1) / size
       ∧ Forall (fun b => 0 < length b <= size) chunks
       ∧ ∀ i, i * size < length seq → chunks !! i = Some (take size (drop (i * size) seq))).
Proof.
  unfold chunked. split; [by intros ->|]. intros Hsize.
  rewrite (proj2 (Nat.eqb_neq size 0)) by lia. eexists. split; [done|].
  split; [by apply concat_chunks|]. split; [by apply length_chunks|].
  split; [by apply chunks_sizes|]. intros i Hi. by apply chunks_lookup.
Qed.

Example chunked_example :
  chunked [1; 2; 3; 4; 5] 2 = Ok [[1; 2]; [3; 4]; [5]]
  ∧ chunked (@nil nat) 2 = Ok [].
Proof. done. Qed.

(** ** Null-safety of what is sent *)








Lemma dict_set_Forall {A} (P : string * A → Prop) k v d :
  P (k, v) → Forall P d → Forall P (dict_set k v d).
Proof.
  intros Hkv. induction 1 as [|[k' v'] d Hk' Hd IH]; simpl; [by repeat constructor|].
  destruct (String.eqb k k'); by constructor.
Qed.



(** ** The status sink *)








(** ** What a run issues *)



(** ** The period keys and their deletes *)

Lemma length_substring_0_le n s : n <= String.length s → String.length (substring 0 n s) = n.
Proof.
  revert s. induction n as [|n IH]; intros [|c s]; simpl; try lia.
  intros Hn. rewrite IH; lia.
Qed.

Lemma competence_key_length rec k : competence_key rec = Some k → String.length k = 7.
Proof.
  unfold competence_key. destruct (dict_get "competence_date" rec) as [[|s| |]|]; try done;
    destruct (truthy _); try done.
  case_bool_decide; [|done]. intros [= <-]. by apply length_substring_0_le.
Qed.

Lemma first_of_month_inv y m d :
  first_of_month y m = Some d →
  (1 <= y <= 9999)%Z ∧ (1 <= m <= 12)%Z ∧ d = {| d_year := y; d_month := m; d_day := 1 |}.
Proof.
  unfold first_of_month.
  destruct (Z.leb_spec 1 y), (Z.leb_spec y 9999), (Z.leb_spec 1 m), (Z.leb_spec m 12);
    simpl; intros [= <-]; repeat split; lia.
Qed.

(** What the loop reads from a key, when it reads anything, is one month
    of the calendar. *)
Lemma period_bounds_sound comp lo hi :
  period_bounds comp = Some (lo, hi) →
  ∃ y m, (1 <= y <= 9999)%Z ∧ (1 <= m <= 12)%Z ∧ (m = 12 → y <= 9998)%Z
         ∧ lo = month_start (y, m) ∧ hi = next_month_start (y, m)
         ∧ date_ltb lo hi = true.
Proof.
  unfold period_bounds.
  destruct (split_on "-" comp) as [|a [|b [|]]]; try done.
  destruct (py_int a) as [y|]; [|done]. destruct (py_int b) as [m|]; [|done].
  destruct (first_of_month y m) as [d|] eqn:Hd; [|done].
  apply first_of_month_inv in Hd as (Hy & Hm & ->).
  unfold month_start, next_month_start, date_ltb. simpl.
  destruct (Z.eqb_spec m 12) as [->|Hne].
  - destruct (first_of_month (y + 1) 1) as [d'|] eqn:Hd'; [|done].
    apply first_of_month_inv in Hd' as (Hy' & _ & ->). intros [= <- <-].
    exists y, 12%Z. simpl. repeat split; lia.
  - destruct (first_of_month y (m + 1)) as [d'|] eqn:Hd'; [|done].
    apply first_of_month_inv in Hd' as (_ & Hm' & ->). intros [= <- <-].
    exists y, m. simpl. rewrite (proj2 (Z.eqb_neq m 12) Hne). repeat split; lia.
Qed.

Lemma fold_delete_competence_calls fl account_id ks w :
  calls (fold_left (delete_competence fl account_id) ks w)
  = calls w
    ++ omap (fun k => (fun b => DeleteByPeriod account_id (fst b) (snd b)
                                  (negb (fail_period_delete fl k))) <$> period_bounds k) ks.
Proof.
  revert w. induction ks as [|k ks IH]; intros w; csimpl; [by rewrite app_nil_r|].
  rewrite IH. unfold delete_competence.
  destruct (period_bounds k) as [[lo hi]|]; csimpl; [|done].
  destruct (fail_period_delete fl k); simpl; by rewrite <- app_assoc.
Qed.

(** X12. The period-scoped deletes of a run are issued for the period keys
    of the records in ascending order, one per key: a key is the first
    seven characters of a [competence_date] text, each key is read at
    most once, a key that does not read as a year and a month of the
    calendar that has a next month is skipped, and every delete issued
    spans one month, from its first day to the first day of the next.
    The last month of the calendar has no next month and is skipped. *)
Theorem period_deletes_issued
  (fl : faults) (account_id : string) (unique : list record) (w : world) :
  let keys := sorted_keys (competences_to_delete unique) in
  calls (delete_competences fl account_id unique w)
  = calls w
    ++ omap (fun k => (fun b => DeleteByPeriod account_id (fst b) (snd b)
                                  (negb (fail_period_delete fl k))) <$> period_bounds k) keys
  ∧ Sorted String.le keys
  ∧ NoDup keys
  ∧ (∀ k, k ∈ keys ↔ ∃ rec, rec ∈ unique ∧ competence_key rec = Some k)
  ∧ (∀ k, k ∈ keys → String.length k = 7)
  ∧ (∀ k lo hi, period_bounds k = Some (lo, hi) →
       ∃ y m, (1 <= y <= 9999)%Z ∧ (1 <= m <= 12)%Z ∧ (m = 12 → y <= 9998)%Z
              ∧ lo = month_start (y, m) ∧ hi = next_month_start (y, m)
              ∧ date_ltb lo hi = true)
  ∧ period_bounds "9999-12" = None
  ∧ period_bounds "2024-12" = Some (month_start (2024, 12)%Z, month_start (2025, 1)%Z).
Proof.
  cbv zeta. split; [apply fold_delete_competence_calls|].
  split; [apply (Sorted_merge_sort String.le)|].
  split.
  { unfold sorted_keys. rewrite merge_sort_Permutation. apply NoDup_elements. }
  split; [intros k; apply elem_of_sorted_keys|].
  split.
  { intros k (rec & _ & Hk)%elem_of_sorted_keys. by eapply competence_key_length. }
  split; [apply period_bounds_sound|]. by vm_compute.
Qed.

(** ** Monetary cells *)

Lemma numeric_char_spec c :
  numeric_char c = true → is_digit c = true ∨ c = ","%char ∨ c = "."%char ∨ c = "-"%char.
Proof.
  unfold numeric_char. intros H.
  apply orb_prop in H as [H|H%Ascii.eqb_eq]; [|auto].
  apply orb_prop in H as [H|H%Ascii.eqb_eq]; [|auto].
  apply orb_prop in H as [H|H%Ascii.eqb_eq]; auto.
Qed.

Lemma digit_not_period c : is_digit c = true → Ascii.eqb c "." = false.
Proof. destruct c as [[] [] [] [] [] [] [] []]; vm_compute; intros; done. Qed.

(** The text handed to the parser is made of digits, periods and minus
    signs. *)
Lemma value_text_alphabet v :
  Forall (fun c => is_digit c = true ∨ c = "."%char ∨ c = "-"%char)
         (list_ascii_of_string (value_text v)).
Proof.
  unfold value_text, keep_numeric_chars, comma_to_period.
  induction (py_str v) as [|c s IH]; simpl; [constructor|].
  destruct (numeric_char c) eqn:Hc; [|done]. simpl. constructor; [|done].
  destruct (Ascii.eqb_spec c ","); [auto|].
  destruct (numeric_char_spec c Hc) as [?|[?|[?|?]]]; auto; done.
Qed.

Lemma count_value_text v :
  count_char "." (value_text v) = count_char "," (py_str v) + count_char "." (py_str v).
Proof.
  unfold value_text, keep_numeric_chars, comma_to_period.
  induction (py_str v) as [|c s IH]; simpl; [done|].
  destruct (Ascii.eqb_spec c ",") as [->|Hcomma]; [simpl; lia|].
  destruct (Ascii.eqb_spec c ".") as [->|Hperiod]; [simpl; lia|].
  destruct (numeric_char c); simpl; [|lia].
  rewrite (proj2 (Ascii.eqb_neq _ _) Hcomma), (proj2 (Ascii.eqb_neq _ _) Hperiod). lia.
Qed.

Lemma int_digits_periods s a :
  count_char "." (snd (Numeric.int_digits s a)) = count_char "." s.
Proof.
  revert a. induction s as [|c s IH]; intros a; [done|]. simpl.
  destruct (is_digit c) eqn:Hc; [|done]. rewrite IH. by rewrite digit_not_period.
Qed.

Lemma frac_digits_periods s a :
  count_char "." (snd (Numeric.frac_digits s a)) = count_char "." s.
Proof.
  revert a. induction s as [|c s IH]; intros a; [done|]. simpl.
  destruct (is_digit c) eqn:Hc; [|done]. rewrite IH. by rewrite digit_not_period.
Qed.

Lemma after_sign_periods s :
  ∃ negative body,
    match s with
    | String "-"%char r => (true, r)
    | _ => (false, s)
    end = (negative, body)
    ∧ count_char "." body = count_char "." s.
Proof.
  destruct s as [|c r]; [by eexists _, _|].
  destruct c as [[] [] [] [] [] [] [] []]; by eexists _, _.
Qed.

(** A text with two periods does not parse. *)
Lemma parse_two_periods s : 2 <= count_char "." s → Numeric.parse s = Numeric.PFail.
Proof.
  intros Hs. unfold Numeric.parse.
  destruct (after_sign_periods s) as (negative & body & -> & Hbody).
  pose proof (int_digits_periods body
                {| Numeric.number := 0; Numeric.num_digits := 0;
                   Numeric.exponent := 0; Numeric.num_decimals := 0 |}) as Hrest.
  destruct (Numeric.int_digits body _) as [a1 rest1]. simpl in Hrest.
  destruct rest1 as [|c r]; [simpl in Hrest; lia|].
  destruct (Ascii.eqb_spec c ".") as [->|Hc].
  - pose proof (frac_digits_periods r a1) as Hfrac.
    destruct (Numeric.frac_digits r a1) as [a2 rest2]. simpl in Hfrac, Hrest.
    destruct (Numeric.num_digits a2 =? 0)%Z; [done|].
    destruct rest2; [simpl in Hfrac; lia|done].
  - destruct c as [[] [] [] [] [] [] [] []]; try done;
      by destruct (Numeric.num_digits a1 =? 0)%Z.
Qed.

Lemma mapM_None_elem {A B} (f : A → option B) l x :
  x ∈ l → f x = None → mapM f l = None.
Proof.
  intros Hx Hfx. destruct (mapM f l) eqn:Hl; [|done].
  assert (is_Some (mapM f l)) as Hsome by (by rewrite Hl).
  apply mapM_is_Some in Hsome. eapply Forall_forall in Hsome; [|exact Hx].
  unfold compose in Hsome. rewrite Hfx in Hsome. by destruct Hsome.
Qed.

(** X13. A monetary cell whose text has two or more separators, commas
    and periods together (a thousands separator and a decimal one, say),
    does not parse: the cleaner gives NaN for it, which the last step of
    the cleaning turns into a null. *)
Theorem two_separators_give_null (cells : list value) (j : nat) (v : value) :
  cells !! j = Some v →
  2 <= count_char "," (py_str v) + count_char "." (py_str v) →
  Numeric.parse (value_text v) = Numeric.PFail
  ∧ clean_values cells !! j = Some (VFloat nan)
  ∧ nan_to_none <$> clean_values cells !! j = Some VNone.
Proof.
  intros Hj Hsep.
  assert (Numeric.parse (value_text v) = Numeric.PFail) as Hfail
    by (apply parse_two_periods; by rewrite count_value_text).
  assert (clean_values cells !! j = Some (VFloat nan)) as Hcell.
  { unfold clean_values, Numeric.to_numeric.
    rewrite (mapM_None_elem _ _ Numeric.PFail).
    - change (map inf_to_nan ?l) with (inf_to_nan <$> l).
      change (map ?f (map Numeric.parse (map value_text cells)))
        with (f <$> (Numeric.parse <$> (value_text <$> cells))).
      by rewrite !list_lookup_fmap, Hj; simpl; rewrite Hfail.
    - change (map Numeric.parse (map value_text cells))
        with (Numeric.parse <$> (value_text <$> cells)).
      apply list_elem_of_lookup. exists j. by rewrite !list_lookup_fmap, Hj; simpl; rewrite Hfail.
    - done. }
  split; [done|]. split; [done|]. by rewrite Hcell.
Qed.

(** X13 at work, on the amount of the specification's scenario. *)
Lemma two_separators_give_null_witness :
  clean_values [VStr "10,50"; VStr "1.234,56"] !! 1 = Some (VFloat nan).
Proof.
  apply (two_separators_give_null [VStr "10,50"; VStr "1.234,56"] 1 (VStr "1.234,56"));
    [reflexivity|vm_compute; lia].
Defined.

(** ** The shape of a monetary column *)

Lemma inf_to_nan_amount v :
  is_int_cell v = true ∨ is_float_cell v = true → amount_cell (inf_to_nan v) = true.
Proof.
  destruct v as [| | |f]; simpl; intros [?|?]; try done.
  destruct (is_inf f) eqn:Hinf; simpl; [done|]. by rewrite Hinf.
Qed.

(** X14. A cleaned monetary column has one cell per cell of the input; it
    holds integers only or floats only, and no infinity; after the last
    step of the cleaning every cell is a null, an integer or a finite
    float. *)
Theorem clean_values_shape (cells : list value) :
  length (clean_values cells) = length cells
  ∧ (Forall (fun v => is_int_cell v = true) (clean_values cells)
     ∨ Forall (fun v => is_float_cell v = true) (clean_values cells))
  ∧ Forall (fun v => amount_cell v = true) (clean_values cells)
  ∧ Forall (fun v => json_safe v = true) (map nan_to_none (clean_values cells)).
Proof.
  unfold clean_values, Numeric.to_numeric.
  destruct (mapM Numeric.int64_of (map Numeric.parse (map value_text cells)))
    as [zs|] eqn:Hzs.
  - apply length_mapM in Hzs. rewrite !length_map in *.
    split; [done|]. split; [left|split].
    + rewrite !Forall_map. by apply Forall_true.
    + rewrite !Forall_map. by apply Forall_true.
    + rewrite !Forall_map. by apply Forall_true.
  - rewrite !length_map. split; [done|]. split; [right|split].
    + rewrite !Forall_map. apply Forall_true. intros p. simpl. by destruct (is_inf _).
    + rewrite !Forall_map. apply Forall_true. intros p. by apply inf_to_nan_amount; right.
    + rewrite !Forall_map. apply Forall_true. intros p. simpl.
      generalize (Numeric.float_of (Numeric.parse (value_text p))). intros f.
      destruct (is_inf f) eqn:Hinf; simpl; [done|].
      destruct (is_nan f) eqn:Hnan; simpl; [done|].
      by rewrite Hnan, Hinf.
Qed.

(** ** Columns through the cleaning steps *)

Lemma dict_get_df_map f df c :
  dict_get c (series (df_map f df)) = map f <$> dict_get c (series df).
Proof.
  unfold df_map. simpl. induction (series df) as [|[k cells] s IH]; simpl; [done|].
  by destruct (String.eqb c k).
Qed.

Lemma dict_get_df_apply col f df c :
  dict_get c (series (df_apply col f df))
  = if String.eqb c col then f <$> dict_get c (series df) else dict_get c (series df).
Proof.
  unfold df_apply. destruct (String.eqb_spec c col) as [->|Hne].
  - destruct (dict_get col (series df)) eqn:Hcol; simpl; [|by rewrite Hcol].
    by rewrite dict_get_set_eq.
  - destruct (dict_get col (series df)); simpl; [|done]. by rewrite dict_get_set_ne.
Qed.

Lemma nrows_df_apply col f df : nrows (df_apply col f df) = nrows df.
Proof. unfold df_apply. by destruct (dict_get col (series df)). Qed.

Lemma nrows_fold_apply f cols df :
  nrows (fold_left (fun df col => df_apply col f df) cols df) = nrows df.
Proof.
  revert df. induction cols as [|col cols IH]; intros df; simpl; [done|].
  by rewrite IH, nrows_df_apply.
Qed.

Lemma fold_apply_other f cols df c :
  c ∉ cols →
  dict_get c (series (fold_left (fun df col => df_apply col f df) cols df))
  = dict_get c (series df).
Proof.
  revert df. induction cols as [|col cols IH]; intros df Hc; simpl; [done|].
  apply not_elem_of_cons in Hc as [Hne Hc]. rewrite IH by done.
  rewrite dict_get_df_apply. by rewrite (proj2 (String.eqb_neq c col)).
Qed.

(** A column named in the list holds what the cleaner made of it. *)
Lemma fold_apply_image f cols df c cells :
  c ∈ cols →
  dict_get c (series (fold_left (fun df col => df_apply col f df) cols df)) = Some cells →
  ∃ cells0, cells = f cells0.
Proof.
  revert df. induction cols as [|col cols IH] using rev_ind; intros df Hc Hcells.
  - by apply elem_of_nil in Hc.
  - rewrite fold_left_app in Hcells. simpl in Hcells.
    rewrite dict_get_df_apply in Hcells.
    destruct (String.eqb_spec c col) as [->|Hne].
    + destruct (dict_get col _) as [cells0|]; [|done]. injection Hcells as <-. by eexists.
    + apply elem_of_app in Hc as [Hc|Hc%list_elem_of_singleton]; [|done].
      by eapply IH.
Qed.

Lemma mem_false x l : mem x l = false ↔ x ∉ l.
Proof.
  rewrite <- mem_spec. destruct (mem x l); split; (done || intros H; by destruct H).
Qed.

Lemma dict_get_fills v cols df c :
  dict_get c (series (fold_left (fun df col => df_fill col v df) cols df))
  = if mem c cols then Some (replicate (nrows df) v) else dict_get c (series df).
Proof.
  revert df. induction cols as [|col cols IH]; intros df; simpl; [done|].
  rewrite IH. unfold df_fill, df_set. simpl.
  destruct (String.eqb_spec c col) as [->|Hne]; simpl.
  - rewrite dict_get_set_eq. by destruct (mem col cols).
  - by rewrite dict_get_set_ne.
Qed.

Lemma nrows_fills v cols df :
  nrows (fold_left (fun df col => df_fill col v df) cols df) = nrows df.
Proof. revert df. induction cols as [|col cols IH]; intros df; simpl; [done|]. by rewrite IH. Qed.

Lemma dict_get_df_select cols df c :
  dict_get c (series (df_select cols df))
  = if mem c cols then Some (default [] (dict_get c (series df))) else None.
Proof.
  unfold df_select, mem. simpl. induction cols as [|col cols IH]; simpl; [done|].
  destruct (String.eqb_spec c col) as [->|Hne]; simpl; [done|]. apply IH.
Qed.

Lemma mem_filter (P : string → bool) x l : mem x (filter P l) = mem x l && P x.
Proof.
  apply Bool.eq_iff_eq_true. rewrite andb_true_iff, !mem_spec, list_elem_of_filter.
  rewrite Is_true_true. tauto.
Qed.

Lemma dict_has_mem {A} c (d : list (string * A)) :
  mem c (dict_keys d) = match dict_get c d with Some _ => true | None => false end.
Proof.
  unfold mem, dict_keys. induction d as [|[k v] d IH]; simpl; [done|].
  by destruct (String.eqb c k).
Qed.

(** ** Lengths *)

Lemma length_clean_values cells : length (clean_values cells) = length cells.
Proof.
  unfold clean_values, Numeric.to_numeric.
  destruct (mapM Numeric.int64_of _) as [zs|] eqn:Hzs.
  - apply length_mapM in Hzs. by rewrite !length_map in *.
  - by rewrite !length_map.
Qed.

Lemma dict_get_length {A} n (d : list (string * list A)) c cells :
  Forall (fun kv => length (snd kv) = n) d → dict_get c d = Some cells → length cells = n.
Proof.
  intros Hall Hc%dict_get_Some_elem_of. by eapply Forall_forall in Hall; [|exact Hc].
Qed.

Lemma dict_set_lengths {A} n (d : list (string * list A)) c cells :
  Forall (fun kv => length (snd kv) = n) d → length cells = n →
  Forall (fun kv => length (snd kv) = n) (dict_set c cells d).
Proof. intros Hd Hc. by apply dict_set_Forall. Qed.

Lemma df_apply_lengths n col f df :
  (∀ cells, length (f cells) = length cells) →
  Forall (fun kv => length (snd kv) = n) (series df) →
  Forall (fun kv => length (snd kv) = n) (series (df_apply col f df)).
Proof.
  intros Hf Hdf. unfold df_apply. destruct (dict_get col (series df)) as [cells|] eqn:Hcol;
    [|done].
  simpl. apply dict_set_lengths; [done|]. rewrite Hf. by eapply dict_get_length.
Qed.

Lemma fold_apply_lengths n f cols df :
  (∀ cells, length (f cells) = length cells) →
  Forall (fun kv => length (snd kv) = n) (series df) →
  Forall (fun kv => length (snd kv) = n)
         (series (fold_left (fun df col => df_apply col f df) cols df)).
Proof.
  intros Hf. revert df. induction cols as [|col cols IH]; intros df Hdf; simpl; [done|].
  apply IH. by apply df_apply_lengths.
Qed.

(** ** Kinds of columns *)

Lemma date_column_kind c : c ∈ date_columns → c ∉ id_columns ∧ c ∉ value_columns.
Proof.
  intros Hc. unfold date_columns in Hc.
  repeat (apply elem_of_cons in Hc as [->|Hc]; [split; by apply mem_false|]).
  by apply elem_of_nil in Hc.
Qed.

Lemma id_column_kind c : c ∈ id_columns → c ∉ date_columns ∧ c ∉ value_columns.
Proof.
  intros Hc. unfold id_columns in Hc.
  repeat (apply elem_of_cons in Hc as [->|Hc]; [split; by apply mem_false|]).
  by apply elem_of_nil in Hc.
Qed.

Lemma value_column_kind c : c ∈ value_columns → c ∉ date_columns ∧ c ∉ id_columns.
Proof.
  intros Hc. unfold value_columns in Hc.
  repeat (apply elem_of_cons in Hc as [->|Hc]; [split; by apply mem_false|]).
  by apply elem_of_nil in Hc.
Qed.

Lemma nan_to_none_idemp v : nan_to_none (nan_to_none v) = nan_to_none v.
Proof.
  destruct v as [| | |f]; simpl; try done.
  destruct (is_nan f) eqn:Hnan; simpl; [done|]. by rewrite Hnan.
Qed.

Lemma typed_date c x : c ∈ date_columns → typed_cell c (nan_to_none (date_cell x)).
Proof.
  intros Hc. destruct (date_column_kind c Hc) as [Hid Hval].
  split; [apply nan_to_none_idemp|]. split; [|by split].
  intros _. destruct x as [ts|]; simpl; [right; by exists ts|by left].
Qed.

Lemma typed_id c v : c ∈ id_columns → typed_cell c (nan_to_none (clean_id v)).
Proof.
  intros Hc. destruct (id_column_kind c Hc) as [Hdate Hval].
  split; [apply nan_to_none_idemp|]. split; [done|]. split; [|done].
  intros _. unfold clean_id.
  destruct (String.eqb_spec (strip_dot_zero (py_str v)) "None"); simpl; [by left|].
  right. by eexists.
Qed.

Lemma typed_amount c v :
  c ∈ value_columns → amount_cell v = true → typed_cell c (nan_to_none v).
Proof.
  intros Hc Hv. destruct (value_column_kind c Hc) as [Hdate Hid].
  split; [apply nan_to_none_idemp|]. split; [done|]. split; [done|].
  intros _. destruct v as [| |z|f]; simpl in *; try done; [by right; left|].
  destruct (is_nan f) eqn:Hnan; [by left|]. right. right. simpl.
  by rewrite Hnan, Hv.
Qed.

Lemma typed_other c v :
  c ∉ date_columns → c ∉ id_columns → c ∉ value_columns → typed_cell c (nan_to_none v).
Proof. intros. split; [apply nan_to_none_idemp|]. by repeat split. Qed.

Lemma typed_null c : typed_cell c VNone.
Proof. split; [done|]. repeat split; intros _; by left. Qed.

Lemma clean_values_amount cells : Forall (fun v => amount_cell v = true) (clean_values cells).
Proof.
  unfold clean_values, Numeric.to_numeric.
  destruct (mapM Numeric.int64_of _) as [zs|]; rewrite !Forall_map; apply Forall_true.
  - done.
  - intros p. by apply inf_to_nan_amount; right.
Qed.

Section Stages.

Context (to_datetime : list value → list (option Timestamp)).

(** After the three loops of the cleaner, a column of one of the three
    kinds holds what the cleaner of that kind returned. *)
Lemma cleaners_image df c X :
  dict_get c (series
    (fold_left (fun df col => df_apply col clean_values df) value_columns
       (fold_left (fun df col => df_apply col (map clean_id) df) id_columns
          (fold_left (fun df col => df_apply col (clean_dates to_datetime) df)
                     date_columns df)))) = Some X →
  (c ∈ date_columns → ∃ X0, X = clean_dates to_datetime X0)
  ∧ (c ∈ id_columns → ∃ X0, X = map clean_id X0)
  ∧ (c ∈ value_columns → ∃ X0, X = clean_values X0).
Proof.
  intros HX. split; [|split]; intros Hc.
  - destruct (date_column_kind c Hc) as [Hid Hval].
    rewrite !fold_apply_other in HX by done. by eapply fold_apply_image.
  - destruct (id_column_kind c Hc) as [Hdate Hval].
    rewrite fold_apply_other in HX by done. by eapply fold_apply_image.
  - by eapply fold_apply_image.
Qed.

Lemma cleaners_typed c X :
  (c ∈ date_columns → ∃ X0, X = clean_dates to_datetime X0) →
  (c ∈ id_columns → ∃ X0, X = map clean_id X0) →
  (c ∈ value_columns → ∃ X0, X = clean_values X0) →
  Forall (typed_cell c) (map nan_to_none X).
Proof.
  intros Hdate Hid Hval. rewrite Forall_map.
  destruct (decide (c ∈ date_columns)) as [Hd|Hd].
  { destruct (Hdate Hd) as [X0 ->]. unfold clean_dates. rewrite Forall_map.
    apply Forall_true. intros x. by apply typed_date. }
  destruct (decide (c ∈ id_columns)) as [Hi|Hi].
  { destruct (Hid Hi) as [X0 ->]. rewrite Forall_map.
    apply Forall_true. intros x. by apply typed_id. }
  destruct (decide (c ∈ value_columns)) as [Hv|Hv].
  { destruct (Hval Hv) as [X0 ->]. eapply Forall_impl; [apply clean_values_amount|].
    intros v. by apply typed_amount. }
  apply Forall_true. intros v. by apply typed_other.
Qed.

Lemma cleaners_lengths n df :
  (∀ cells, length (to_datetime cells) = length cells) →
  Forall (fun kv => length (snd kv) = n) (series df) →
  Forall (fun kv => length (snd kv) = n) (series
    (fold_left (fun df col => df_apply col clean_values df) value_columns
       (fold_left (fun df col => df_apply col (map clean_id) df) id_columns
          (fold_left (fun df col => df_apply col (clean_dates to_datetime) df)
                     date_columns df)))).
Proof.
  intros Hlen Hdf.
  apply fold_apply_lengths; [apply length_clean_values|].
  apply fold_apply_lengths; [intros; apply length_map|].
  apply fold_apply_lengths; [|done].
  intros cells. unfold clean_dates. by rewrite length_map.
Qed.

End Stages.

(** ** The cleaned frame *)

Lemma detect_layout_values columns layout_hint :
  detect_layout columns layout_hint = "legacy" ∨ detect_layout columns layout_hint = "v3".
Proof.
  unfold detect_layout.
  destruct (normalize_layout_hint layout_hint) as [h|] eqn:Hh;
    [|case_bool_decide; auto].
  unfold normalize_layout_hint in Hh. destruct layout_hint as [[|ch s]|]; try done.
  revert Hh. generalize (lower (strip (String ch s))). intros h'.
  case_bool_decide as Hin; [|done]. intros [= <-].
  apply elem_of_union in Hin as [Hin|Hin]; apply elem_of_singleton in Hin; auto.
Qed.

Lemma final_columns_layouts :
  final_columns COLUMNS_MAPPING_V3 = final_columns COLUMNS_MAPPING_LEGACY.
Proof. vm_compute. reflexivity. Qed.

Lemma final_columns_NoDup : NoDup (final_columns COLUMNS_MAPPING_LEGACY).
Proof. apply (bool_decide_unpack _). vm_compute. exact I. Qed.

Lemma dict_get_df_fill k v df c :
  dict_get c (series (df_fill k v df))
  = if String.eqb c k then Some (replicate (nrows df) v) else dict_get c (series df).
Proof.
  unfold df_fill, df_set. simpl. destruct (String.eqb_spec c k) as [->|Hne].
  - apply dict_get_set_eq.
  - by apply dict_get_set_ne.
Qed.

Lemma nrows_select_map f cols k v df :
  nrows (df_map f (df_select cols (df_fill k v df))) = nrows df.
Proof. done. Qed.

Lemma df_columns_select_map f cols df :
  df_columns (df_map f (df_select cols df)) = cols.
Proof.
  unfold df_columns, dict_keys, df_map, df_select. simpl.
  rewrite !map_map. simpl. apply map_id.
Qed.

(** What the last steps leave in a column of the final list: the column
    of the frame so far, or nulls when the frame has no such column. *)
Lemma filled_column (final : list string) (lv : string) (d5 : DataFrame) (c : string) :
  mem c final = true →
  "layout_version" ∉ date_columns → "layout_version" ∉ id_columns →
  "layout_version" ∉ value_columns →
  Forall (fun kv => length (snd kv) = nrows d5) (series d5) →
  (∀ X, dict_get c (series d5) = Some X → Forall (typed_cell c) (map nan_to_none X)) →
  ∃ X, dict_get c (series
         (df_fill "layout_version" (VStr lv)
            (fold_left (fun df col => df_fill col VNone df)
               (filter (fun c => negb (mem c (df_columns d5))) final) d5))) = Some X
       ∧ length X = nrows d5
       ∧ Forall (typed_cell c) (map nan_to_none X).
Proof.
  intros Hc Hd Hi Hv Hlen Htyped. rewrite dict_get_df_fill, nrows_fills.
  destruct (String.eqb_spec c "layout_version") as [->|Hne].
  - eexists. split; [done|]. split; [apply length_replicate|].
    rewrite Forall_map. apply Forall_forall. intros x [-> _]%elem_of_replicate.
    by apply typed_other.
  - rewrite dict_get_fills, mem_filter, Hc. simpl.
    unfold df_columns. rewrite dict_has_mem.
    destruct (dict_get c (series d5)) as [X|] eqn:HX; simpl.
    + exists X. split; [done|]. split; [by eapply dict_get_length|by apply Htyped].
    + eexists. split; [done|]. split; [apply length_replicate|].
      rewrite Forall_map. apply Forall_forall. intros x [-> _]%elem_of_replicate.
      apply typed_null.
Qed.

(** X15. For a well-formed frame whose columns get distinct names under
    the mapping of its layout, and a date reader that gives one result per
    cell: the cleaned frame has the rows of the input and, under either
    layout, the same 35 columns in the same order, the last of them
    [layout_version] with the layout on every row; every column has one
    cell per row, and no cell is a NaN; a date cell is a null or an ISO
    text, an identifier a null or a text other than [None], an amount a
    null, an integer or a finite float. *)
Theorem cleaned_frame_shape
  (to_datetime : list value → list (option Timestamp))
  (original_df : DataFrame) (layout_hint : option string) :
  (∀ cells, length (to_datetime cells) = length cells) →
  df_wf original_df →
  NoDup (df_columns (df_rename
           (get_mapping_for_layout (detected_layout original_df layout_hint)) original_df)) →
  let out := clean_frame to_datetime original_df layout_hint in
  snd out = detected_layout original_df layout_hint
  ∧ (snd out = "legacy" ∨ snd out = "v3")
  ∧ df_columns (fst out) = final_columns COLUMNS_MAPPING_LEGACY
  ∧ final_columns COLUMNS_MAPPING_V3 = final_columns COLUMNS_MAPPING_LEGACY
  ∧ length (final_columns COLUMNS_MAPPING_LEGACY) = 35
  ∧ last (final_columns COLUMNS_MAPPING_LEGACY) = Some "layout_version"
  ∧ nrows (fst out) = nrows original_df
  ∧ df_wf (fst out)
  ∧ dict_get "layout_version" (series (fst out))
    = Some (replicate (nrows original_df) (VStr (snd out)))
  ∧ (∀ c cells, dict_get c (series (fst out)) = Some cells → Forall (typed_cell c) cells).
Proof.
  intros Hlen [Hwf _] _. cbv zeta.
  pose proof (detect_layout_values
                (list_to_set (map (fun col => lower (strip col)) (df_columns original_df)))
                layout_hint) as Hlv.
  unfold clean_frame. cbv zeta. fold (detected_layout original_df layout_hint) in *.
  remember (detected_layout original_df layout_hint) as lv eqn:Elv. clear Elv.
  assert (final_columns (get_mapping_for_layout lv) = final_columns COLUMNS_MAPPING_LEGACY)
    as -> by (destruct Hlv as [-> | ->]; vm_compute; reflexivity).
  remember (fold_left (fun df col => df_apply col clean_values df) value_columns
              (fold_left (fun df col => df_apply col (map clean_id) df) id_columns
                 (fold_left (fun df col => df_apply col (clean_dates to_datetime) df)
                    date_columns
                    (df_rename (get_mapping_for_layout lv)
                       (df_map nan_to_none original_df))))) as d5 eqn:Ed5.
  assert (nrows d5 = nrows original_df) as Hn
    by (subst d5; by rewrite !nrows_fold_apply).
  assert (Forall (fun kv => length (snd kv) = nrows d5) (series d5)) as Hlens.
  { rewrite Hn. subst d5. apply cleaners_lengths; [done|].
    cbn [series df_rename df_map]. rewrite !Forall_map.
    eapply Forall_impl; [exact Hwf|].
    intros [c cells] Hc. cbn [snd] in *. by rewrite length_map. }
  assert (∀ c X, dict_get c (series d5) = Some X →
                 Forall (typed_cell c) (map nan_to_none X)) as Htyped.
  { intros c X HX. subst d5. apply cleaners_image in HX as (Hd & Hi & Hv).
    by eapply cleaners_typed. }
  clear Ed5. cbn [fst snd].
  assert ("layout_version" ∉ date_columns ∧ "layout_version" ∉ id_columns
          ∧ "layout_version" ∉ value_columns) as (Hkd & Hki & Hkv)
    by (repeat split; by apply mem_false).
  pose proof (fun c Hc => filled_column (final_columns COLUMNS_MAPPING_LEGACY) lv d5 c Hc
                            Hkd Hki Hkv Hlens (Htyped c)) as Hcol.
  split; [done|]. split; [done|].
  split; [apply df_columns_select_map|]. split; [apply final_columns_layouts|].
  split; [by vm_compute|]. split; [by vm_compute|]. split; [by rewrite nrows_select_map, nrows_fills|].
  split; [split|split].
  - rewrite nrows_select_map, nrows_fills.
    cbn [series df_map df_select]. rewrite !Forall_map.
    apply Forall_forall. intros c Hc%mem_spec. cbn [snd].
    destruct (Hcol c Hc) as (X & -> & HX & _). cbn [default from_option].
    rewrite length_map. exact HX.
  - rewrite df_columns_select_map. apply final_columns_NoDup.
  - rewrite dict_get_df_map, dict_get_df_select.
    replace (mem "layout_version" (final_columns COLUMNS_MAPPING_LEGACY)) with true
      by (by vm_compute).
    rewrite dict_get_df_fill, nrows_fills, Hn. rewrite String.eqb_refl.
    cbn [default from_option fmap option_fmap option_map]. unfold id. f_equal.
    apply (fmap_replicate nan_to_none).
  - intros c cells Hcells. rewrite dict_get_df_map, dict_get_df_select in Hcells.
    destruct (mem c (final_columns COLUMNS_MAPPING_LEGACY)) eqn:Hc; [|done].
    destruct (Hcol c Hc) as (X & HX & _ & HXt). rewrite HX in Hcells.
    cbn [default from_option fmap option_fmap option_map] in Hcells.
    by injection Hcells as <-.
Qed.

(** X15 at work, on the two-row file of the scenario. *)
Lemma cleaned_frame_shape_witness :
  df_columns (fst (clean_frame iso_to_datetime (scenario_frame "1234,56") None))
  = final_columns COLUMNS_MAPPING_LEGACY
  ∧ df_wf (fst (clean_frame iso_to_datetime (scenario_frame "1234,56") None)).
Proof.
  assert (∀ cells, length (iso_to_datetime cells) = length cells) as Hlen
    by (intros; apply length_map).
  assert (df_wf (scenario_frame "1234,56")) as Hwf.
  { split; [by repeat constructor|]. apply (bool_decide_unpack _). vm_compute. exact I. }
  assert (NoDup (df_columns (df_rename
            (get_mapping_for_layout (detected_layout (scenario_frame "1234,56") None))
            (scenario_frame "1234,56")))) as Hnd.
  { apply (bool_decide_unpack _). vm_compute. exact I. }
  pose proof (cleaned_frame_shape iso_to_datetime (scenario_frame "1234,56") None
                Hlen Hwf Hnd) as H.
  split; apply H.
Defined.

(** A header in capitals is not renamed, an unknown column is dropped, and
    an infinity in a column that is only passed through is still there
    after the cleaning; the sanitizer of the persister nulls it. *)
Example odd_frame_cleaned :
  let df := fst (clean_frame iso_to_datetime odd_frame None) in
  let is_infinity v := match v with VFloat f => is_inf f | _ => false end in
  dict_get "competence_date" (series df) = Some [VNone; VNone]
  ∧ dict_get "nota" (series df) = None
  ∧ dict_get "gross_value" (series df) = Some [VFloat 10.5; VNone]
  ∧ map is_infinity <$> dict_get "title" (series df) = Some [true; false]
  ∧ (dict_get "title" (series df) ≫= (fun cells => cells !! 1)) = Some VNone
  ∧ _sanitize_value (VFloat infinity) = VNone.
Proof. vm_compute. repeat split. Qed.

(** ** Reading the file *)

Lemma select_sheet_name_elem_of first rest layout_hint :
  ∃ name, _select_sheet_name (first :: rest) layout_hint = Ok name ∧ name ∈ first :: rest.
Proof.
  unfold _select_sheet_name.
  assert (default first ((first :: rest) !! 1) ∈ first :: rest) as Hsecond.
  { destruct rest as [|second rest]; simpl; [apply list_elem_of_here|].
    apply list_elem_of_further, list_elem_of_here. }
  repeat case_match; eexists; (split; [done|]); (exact Hsecond || apply list_elem_of_here).
Qed.

Lemma dict_get_is_Some {A} k (d : list (string * A)) :
  k ∈ dict_keys d → is_Some (dict_get k d).
Proof.
  intros Hk. destruct (dict_get k d) eqn:Hget; [by eexists|].
  by apply dict_get_None_keys in Hget.
Qed.

(** X16. A delimited text is the frame read with the semicolon when that
    read succeeds, and otherwise whatever the read with the comma gives,
    its exception included. A workbook that cannot be opened, or has no
    worksheet, raises. Otherwise a worksheet of the workbook is selected
    and its frame returned, except that a [ValueError] of its parse makes
    the first worksheet the one parsed; any other exception goes up. With
    a single worksheet the result is the parse of that worksheet, whatever
    the hint. *)
Theorem read_source_cases (layout_hint : option string) :
  (∀ semicolon comma df,
     read_source (CsvFile semicolon comma) layout_hint = Ok df
     ↔ semicolon = Ok df ∨ ((∃ e, semicolon = Raise e) ∧ comma = Ok df))
  ∧ (∀ semicolon comma e,
       read_source (CsvFile semicolon comma) layout_hint = Raise e
       ↔ (∃ e1, semicolon = Raise e1) ∧ comma = Raise e)
  ∧ (∀ e, read_source (ExcelFile (Raise e)) layout_hint = Raise e)
  ∧ (∃ msg, read_source (ExcelFile (Ok [])) layout_hint = Raise (ValueError msg))
  ∧ (∀ name parsed rest,
       let sheets := (name, parsed) :: rest in
       ∃ selected found,
         _select_sheet_name (dict_keys sheets) layout_hint = Ok selected
         ∧ dict_get selected sheets = Some found
         ∧ read_source (ExcelFile (Ok sheets)) layout_hint
           = match found with
             | Raise (ValueError _) => parsed
             | _ => found
             end)
  ∧ (∀ name parsed, read_source (ExcelFile (Ok [(name, parsed)])) layout_hint = parsed).
Proof.
  split; [|split; [|split; [|split; [|split]]]].
  - intros [df'|e'] comma df; simpl; split.
    + intros [= ->]. by left.
    + intros [[= ->]|[[e He] _]]; done.
    + intros ->. right. split; [by eexists|done].
    + intros [?|[_ ->]]; done.
  - intros [df'|e'] comma e; simpl; split.
    + done.
    + intros [[e1 He1] _]. done.
    + intros ->. split; [by eexists|done].
    + by intros [_ ->].
  - done.
  - by eexists.
  - intros name parsed rest sheets.
    destruct (select_sheet_name_elem_of name (dict_keys rest) layout_hint)
      as (selected & Hsel & Hin).
    destruct (dict_get_is_Some selected sheets Hin) as [found Hfound].
    exists selected, found. split; [exact Hsel|]. split; [exact Hfound|].
    unfold read_source. fold sheets.
    change (dict_keys sheets) with (name :: dict_keys rest). rewrite Hsel, Hfound.
    by destruct found as [df|[]].
  - intros name parsed.
    destruct (select_sheet_name_elem_of name [] layout_hint) as (selected & Hsel & Hin).
    apply list_elem_of_singleton in Hin as ->.
    unfold read_source. change (dict_keys [(name, parsed)]) with [name]. rewrite Hsel.
    simpl. rewrite String.eqb_refl. by destruct parsed as [df|[]].
Qed.

(** ** The [.0] of identifiers *)

Lemma length_append (a b : string) :
  String.length (a ++ b) = String.length a + String.length b.
Proof.
  induction a as [|c a IH]; rewrite ?append_nil, ?append_cons; [done|].
  simpl. by rewrite IH.
Qed.

Lemma append_dot_zero_ne r :
  (r ++ ".0")%string ≠ "0" ∧ (r ++ ".0")%string ≠ ("0" ++ line_feed)%string.
Proof.
  split; intros H.
  - apply (f_equal String.length) in H. rewrite length_append in H. simpl in H. lia.
  - destruct r as [|a r]; [by rewrite append_nil in H|].
    apply (f_equal String.length) in H. rewrite !length_append in H.
    unfold line_feed in H. simpl in H. lia.
Qed.

Lemma append_dot_zero_lf_ne r :
  (r ++ ".0" ++ line_feed)%string ≠ "0"
  ∧ (r ++ ".0" ++ line_feed)%string ≠ ("0" ++ line_feed)%string.
Proof.
  split; intros H; apply (f_equal String.length) in H; rewrite !length_append in H;
    unfold line_feed in H; simpl in H; lia.
Qed.

Lemma strip_dot_zero_suffix r : strip_dot_zero (r ++ ".0") = r.
Proof.
  induction r as [|c r IH]; [done|]. rewrite append_cons.
  destruct (append_dot_zero_ne r) as [H1 H2].
  cbn [strip_dot_zero]. rewrite IH.
  destruct (String.eqb_spec (String c (r ++ ".0")) ".0") as [[= _ H]|_]; [done|].
  by destruct (String.eqb_spec (String c (r ++ ".0")) (".0" ++ line_feed)) as [[= _ H]|_].
Qed.

Lemma strip_dot_zero_suffix_lf r :
  strip_dot_zero (r ++ ".0" ++ line_feed) = (r ++ line_feed)%string.
Proof.
  induction r as [|c r IH]; [done|].
  change (String c r ++ ".0" ++ line_feed)%string
    with (String c (r ++ ".0" ++ line_feed)).
  change (String c r ++ line_feed)%string with (String c (r ++ line_feed)).
  destruct (append_dot_zero_lf_ne r) as [H1 H2].
  cbn [strip_dot_zero]. rewrite IH.
  destruct (String.eqb_spec (String c (r ++ ".0" ++ line_feed)) ".0") as [[= _ H]|_];
    [done|].
  by destruct (String.eqb_spec (String c (r ++ ".0" ++ line_feed)) (".0" ++ line_feed))
    as [[= _ H]|_].
Qed.

Lemma strip_dot_zero_other s :
  (∀ r, s ≠ (r ++ ".0")%string) → (∀ r, s ≠ (r ++ ".0" ++ line_feed)%string) →
  strip_dot_zero s = s.
Proof.
  induction s as [|c s IH]; intros H1 H2; [done|]. cbn [strip_dot_zero].
  destruct (String.eqb_spec (String c s) ".0") as [Heq|_]; [by destruct (H1 "")|].
  destruct (String.eqb_spec (String c s) (".0" ++ line_feed)) as [Heq|_];
    [by destruct (H2 "")|].
  rewrite IH; [done| |].
  - intros r ->. by destruct (H1 (String c r)).
  - intros r ->. by destruct (H2 (String c r)).
Qed.

(** X17. The identifier cleaner drops one final [.0] of a text, also when
    a line feed ends the text after it, and leaves every other text as it
    is; a second [.0] before the dropped one stays. *)
Theorem strip_dot_zero_cases (r : string) :
  strip_dot_zero (r ++ ".0") = r
  ∧ strip_dot_zero (r ++ ".0" ++ line_feed) = (r ++ line_feed)%string
  ∧ ((∀ r', r ≠ (r' ++ ".0")%string) → (∀ r', r ≠ (r' ++ ".0" ++ line_feed)%string) →
     strip_dot_zero r = r)
  ∧ strip_dot_zero "10.0.0" = "10.0"
  ∧ strip_dot_zero "10.01" = "10.01".
Proof.
  split; [apply strip_dot_zero_suffix|]. split; [apply strip_dot_zero_suffix_lf|].
  split; [apply strip_dot_zero_other|]. done.
Qed.
